(** * kittens/icat/main.py: transfer, placement and capability detection

    A shallow embedding of the icat kitten.  Python integers are [Z], byte
    strings are [list byte], dictionaries are [gmap]s.  Text strings are
    [string]s holding UTF-8, decoded to code points where the program looks
    at characters ([int()] in [parse_place]).

    A finite Python float is the rational it denotes.  Where the program
    takes [int()] or [ceil()] of a quotient of two integers (the cell
    computations of [set_cursor] and [set_cursor_for_place]) the quotient is
    kept exact: rounding it to a float changes neither result as long as the
    operands are below 2^53.  Where it goes on computing with the quotient
    (the target box of [process] under a place) the rounding shows, and the
    quotient and the product are rounded to binary64 as Python rounds them.

    Exceptions are a [result] type; writes to [sys.stdout] are collected, in
    order, in a list of [event]s. *)

From Stdlib Require Import ZArith QArith Qround Qabs Lia.
From Stdlib Require Import Strings.String Strings.Ascii Strings.Byte.
From Stdlib Require Import DecimalString.
From stdpp Require Import gmap strings list fin_maps.
From Equations Require Import Equations.

Local Open Scope string_scope.
Local Open Scope list_scope.
Local Open Scope Z_scope.

(** ** Python values, exceptions, output *)

#[global] Instance byte_eq_dec : EqDecision byte.
Proof.
  intros x y. destruct (Byte.eqb x y) eqn:E.
  - left. now apply Byte.byte_dec_bl.
  - right. now apply Byte.eqb_false.
Defined.

(** A bytes literal. *)
Definition B (s : string) : list byte := list_byte_of_string s.

Definition ESC : byte := Byte.x1b.
Definition BACKSLASH : byte := Byte.x5c.
Definition NEWLINE : byte := Byte.x0a.

(** Scalar values stored in a graphics command. *)
Inductive value : Type :=
| VInt (n : Z)
| VStr (s : string).

#[global] Instance value_eq_dec : EqDecision value.
Proof. solve_decision. Defined.

(** The argument of [SystemExit]: an exit code or a message. *)
Inductive exit_arg : Type :=
| ExitCode (n : Z)
| ExitMsg (s : string).

Inductive exn : Type :=
| ZeroDivisionError
| KeyError (key : string)
| ValueError
| OverflowError (msg : string)
| TypeError (msg : string)
| OSError (msg : string)
| OpenFailed (msg : string)
| ConvertFailed (msg : string)
| NoImageMagick (msg : string)
| SystemExit (arg : exit_arg).

Inductive result (A : Type) : Type :=
| Ok (a : A)
| Raise (e : exn).
Arguments Ok {A} a.
Arguments Raise {A} e.

Definition rbind {A B} (r : result A) (k : A -> result B) : result B :=
  match r with
  | Ok a => k a
  | Raise e => Raise e
  end.

(** What the program does to the outside world, in order. *)
Inductive event : Type :=
| Write (bs : list byte)                                   (* sys.stdout.buffer.write *)
| GrCmd (cmd : gmap string value) (payload : option (list byte))  (* write_gr_cmd *)
| Print (s : string)                                       (* print *)
| PrintErr (s : string)                                    (* print(file=sys.stderr) *)
| CreateTemp (path : string) (data : list byte)            (* NamedTemporaryFile *)
| Unlink (path : string).                                  (* os.unlink *)

(** Output so far, and either a value or the exception that stopped the
    computation. *)
Definition M (A : Type) : Type := (list event * result A)%type.

Definition ret {A} (a : A) : M A := ([], Ok a).
Definition raise {A} (e : exn) : M A := ([], Raise e).
Definition emit (ev : event) : M unit := ([ev], Ok tt).
Definition lift {A} (r : result A) : M A := ([], r).

Definition bind {A B} (m : M A) (k : A -> M B) : M B :=
  match m with
  | (out, Ok a) => let '(out', r) := k a in (out ++ out', r)
  | (out, Raise e) => (out, Raise e)
  end.

(** [try: m except: handler]. *)
Definition try_except {A} (m : M A) (handler : exn -> M A) : M A :=
  match m with
  | (out, Ok a) => (out, Ok a)
  | (out, Raise e) => let '(out', r) := handler e in (out ++ out', r)
  end.

Notation "'let*' x ':=' m 'in' k" := (bind m (fun x => k))
  (at level 10, x pattern, m at level 100, k at level 200).
Notation "'let?' x ':=' m 'in' k" := (rbind m (fun x => k))
  (at level 10, x pattern, m at level 100, k at level 200).

(** ** Python arithmetic *)

(** [a / b] on integers. *)
Definition truediv (a b : Z) : result Q :=
  if decide (b = 0) then Raise ZeroDivisionError
  else Ok (inject_Z a / inject_Z b)%Q.

(** [a % b] on integers. *)
Definition pymod (a b : Z) : result Z :=
  if decide (b = 0) then Raise ZeroDivisionError else Ok (a mod b).

(** [int(x)] on a float: truncation towards zero. *)
Definition int_of_float (x : Q) : Z :=
  if Qle_bool 0 x then Qfloor x else Qceiling x.

(** [math.ceil]. *)
Definition ceil (x : Q) : Z := Qceiling x.

(** ** Floats

    [binary64] rounds a rational to the nearest IEEE 754 double, ties to
    even, with the gradual underflow of the format and no upper bound; a
    result at or beyond 2^1024 is an overflow, which Python reports as
    [OverflowError] when it converts or divides integers and as an infinity
    when it multiplies floats.  The two zeros are not told apart. *)

Inductive float : Type :=
| Finite (q : Q)
| Infinity (negative : bool).

Definition round_half_even (x : Q) : Z :=
  let f := Qfloor x in
  match Qcompare (x - inject_Z f) (1 # 2) with
  | Lt => f
  | Gt => f + 1
  | Eq => if Z.even f then f else f + 1
  end.

Definition pow2 (e : Z) : Q := Qpower 2 e.

(** [floor (log2 a)] for a positive [a]. *)
Definition ilog2 (a : Q) : Z :=
  let k := Z.log2 (Qnum a) - Z.log2 (Z.pos (Qden a)) in
  if Qle_bool (pow2 k) a then k else k - 1.

Definition binary64 (x : Q) : Q :=
  if Qeq_bool x 0 then 0%Q
  else
    let a := Qabs x in
    let e := Z.max (ilog2 a - 52) (-1074) in
    let r := (inject_Z (round_half_even (a / pow2 e)) * pow2 e)%Q in
    if Qle_bool 0 x then r else (- r)%Q.

Definition overflows (r : Q) : bool := Qle_bool (pow2 1024) (Qabs r).

(** The conversion of an integer operand of a float operation. *)
Definition float_of_int (n : Z) : result Q :=
  let r := binary64 (inject_Z n) in
  if overflows r then Raise (OverflowError "int too large to convert to float")
  else Ok r.

(** [a / b] on integers, as the float it is. *)
Definition float_truediv (a b : Z) : result Q :=
  if decide (b = 0) then Raise ZeroDivisionError
  else
    let r := binary64 (inject_Z a / inject_Z b) in
    if overflows r then
      Raise (OverflowError "integer division result too large for a float")
    else Ok r.

(** [x * y] on finite floats. *)
Definition float_mul (x y : Q) : float :=
  let r := binary64 (x * y) in
  if overflows r then Infinity (negb (Qle_bool 0 r)) else Finite r.

(** [str(n)] on an integer, as ASCII bytes. *)
Definition str_of_int (n : Z) : list byte :=
  list_byte_of_string (NilZero.string_of_int (Z.to_int n)).

(** ** Screen geometry and places *)

Record ScreenSize : Type := mkScreenSize {
  ss_width : Z;
  ss_height : Z;
  ss_cols : Z;
  ss_rows : Z
}.

Record Place : Type := mkPlace {
  place_width : Z;
  place_height : Z;
  place_left : Z;
  place_top : Z
}.

(** ** Placement *)

Definition calculate_in_cell_x_offset (width cell_width : Z) (align : string)
  : result Z :=
  if decide (align = "left") then Ok 0
  else
    let? extra_pixels := pymod width cell_width in
    if decide (extra_pixels = 0) then Ok 0
    else if decide (align = "right") then Ok (cell_width - extra_pixels)
    else Ok ((cell_width - extra_pixels) / 2).

Section Placement.

(** The module-level [screen_size] function, sampled once. *)
Variable screen_size : ScreenSize.

Definition set_cursor (cmd : gmap string value) (width height : Z)
    (align : string) : M (gmap string value) :=
  let ss := screen_size in
  let* q := lift (truediv (ss_width ss) (ss_cols ss)) in
  let cw := int_of_float q in
  let* q' := lift (truediv width cw) in
  let num_of_cells_needed := ceil q' in
  if decide (num_of_cells_needed > ss_cols ss) then
    (* the result of fit_image is not used *)
    let* qh := lift (truediv (ss_height ss) (ss_rows ss)) in
    let ch := int_of_float qh in
    let* qr := lift (truediv height ch) in
    let num_of_rows_needed := ceil qr in
    ret (<["r" := VInt num_of_rows_needed]> (<["c" := VInt (ss_cols ss)]> cmd))
  else
    let* off := lift (calculate_in_cell_x_offset width cw align) in
    let cmd := <["X" := VInt off]> cmd in
    let extra_cells :=
      if decide (align = "center") then (ss_cols ss - num_of_cells_needed) / 2
      else if decide (align = "right") then ss_cols ss - num_of_cells_needed
      else 0 in
    if decide (extra_cells = 0) then ret cmd
    else
      let* _ := emit (Write (replicate (Z.to_nat extra_cells) (" "%byte))) in
      ret cmd.

(** The cursor-position sequence [ESC [ row ; col H]. *)
Definition cursor_position (row col : Z) : list byte :=
  ESC :: B "[" ++ str_of_int row ++ B ";" ++ str_of_int col ++ B "H".

Definition set_cursor_for_place (place : Place) (cmd : gmap string value)
    (width height : Z) (align : string) : M (gmap string value) :=
  let x := place_left place + 1 in
  let ss := screen_size in
  let* q := lift (truediv (ss_width ss) (ss_cols ss)) in
  let cw := int_of_float q in
  let* q' := lift (truediv width cw) in
  let num_of_cells_needed := ceil q' in
  let* off := lift (calculate_in_cell_x_offset width cw align) in
  let cmd := <["X" := VInt off]> cmd in
  let extra_cells :=
    if decide (align = "center") then (place_width place - num_of_cells_needed) / 2
    else if decide (align = "right") then place_width place - num_of_cells_needed
    else 0 in
  let* _ := emit (Write (cursor_position (place_top place + 1) (x + extra_cells))) in
  ret cmd.

End Placement.

(** ** base64.standard_b64encode

    The standard library's encoder (RFC 4648, alphabet [A-Za-z0-9+/], padded
    with [=]): every three bytes give four characters of six bits each, most
    significant bit first. *)

(** Six bits, most significant first. *)
Definition sextet : Type := (bool * bool * bool * bool * bool * bool)%type.

Definition b2n (b : bool) : nat := if b then 1%nat else 0%nat.

Definition sextet_index (s : sextet) : nat :=
  let '(x5, x4, x3, x2, x1, x0) := s in
  (32 * b2n x5 + 16 * b2n x4 + 8 * b2n x3 + 4 * b2n x2 + 2 * b2n x1 + b2n x0)%nat.

Definition sextet_of_index (n : nat) : sextet :=
  (Nat.testbit n 5, Nat.testbit n 4, Nat.testbit n 3,
   Nat.testbit n 2, Nat.testbit n 1, Nat.testbit n 0).

Definition b64_alphabet : list byte :=
  B "ABCDEFGHIJKLMNOPQRSTUVWXYZabcdefghijklmnopqrstuvwxyz0123456789+/".

Definition b64_pad : byte := "="%byte.

Definition b64_char (s : sextet) : byte :=
  nth (sextet_index s) b64_alphabet b64_pad.

(** The three ways a group of input bytes is cut into sextets. *)
Definition sextets3 (a b c : byte) : sextet * sextet * sextet * sextet :=
  let '(a0, (a1, (a2, (a3, (a4, (a5, (a6, a7))))))) := Byte.to_bits a in
  let '(b0, (b1, (b2, (b3, (b4, (b5, (b6, b7))))))) := Byte.to_bits b in
  let '(c0, (c1, (c2, (c3, (c4, (c5, (c6, c7))))))) := Byte.to_bits c in
  ((a7, a6, a5, a4, a3, a2), (a1, a0, b7, b6, b5, b4),
   (b3, b2, b1, b0, c7, c6), (c5, c4, c3, c2, c1, c0)).

Definition sextets2 (a b : byte) : sextet * sextet * sextet :=
  let '(a0, (a1, (a2, (a3, (a4, (a5, (a6, a7))))))) := Byte.to_bits a in
  let '(b0, (b1, (b2, (b3, (b4, (b5, (b6, b7))))))) := Byte.to_bits b in
  ((a7, a6, a5, a4, a3, a2), (a1, a0, b7, b6, b5, b4),
   (b3, b2, b1, b0, false, false)).

Definition sextets1 (a : byte) : sextet * sextet :=
  let '(a0, (a1, (a2, (a3, (a4, (a5, (a6, a7))))))) := Byte.to_bits a in
  ((a7, a6, a5, a4, a3, a2), (a1, a0, false, false, false, false)).

Fixpoint standard_b64encode (data : list byte) : list byte :=
  match data with
  | [] => []
  | [a] =>
      let '(s1, s2) := sextets1 a in
      [b64_char s1; b64_char s2; b64_pad; b64_pad]
  | [a; b] =>
      let '(s1, s2, s3) := sextets2 a b in
      [b64_char s1; b64_char s2; b64_char s3; b64_pad]
  | a :: b :: c :: rest =>
      let '(s1, s2, s3, s4) := sextets3 a b c in
      b64_char s1 :: b64_char s2 :: b64_char s3 :: b64_char s4
        :: standard_b64encode rest
  end.

(** The receiving side: RFC 4648 decoding of padded base64 text. *)

Definition b64_index (c : byte) : option sextet :=
  (fun '(i, _) => sextet_of_index i) <$> list_find (fun x => x = c) b64_alphabet.

Definition byte_of_sextets_1 (s1 s2 : sextet) : byte :=
  let '(a7, a6, a5, a4, a3, a2) := s1 in
  let '(a1, a0, _, _, _, _) := s2 in
  Byte.of_bits (a0, (a1, (a2, (a3, (a4, (a5, (a6, a7))))))).

Definition byte_of_sextets_2 (s2 s3 : sextet) : byte :=
  let '(_, _, b7, b6, b5, b4) := s2 in
  let '(b3, b2, b1, b0, _, _) := s3 in
  Byte.of_bits (b0, (b1, (b2, (b3, (b4, (b5, (b6, b7))))))).

Definition byte_of_sextets_3 (s3 s4 : sextet) : byte :=
  let '(_, _, _, _, c7, c6) := s3 in
  let '(c5, c4, c3, c2, c1, c0) := s4 in
  Byte.of_bits (c0, (c1, (c2, (c3, (c4, (c5, (c6, c7))))))).

Fixpoint standard_b64decode (text : list byte) : option (list byte) :=
  match text with
  | [] => Some []
  | c1 :: c2 :: c3 :: c4 :: rest =>
      if decide (c4 = b64_pad) then
        match rest with
        | [] =>
            if decide (c3 = b64_pad) then
              s1 ← b64_index c1; s2 ← b64_index c2;
              Some [byte_of_sextets_1 s1 s2]
            else
              s1 ← b64_index c1; s2 ← b64_index c2; s3 ← b64_index c3;
              Some [byte_of_sextets_1 s1 s2; byte_of_sextets_2 s2 s3]
        | _ :: _ => None
        end
      else
        s1 ← b64_index c1; s2 ← b64_index c2;
        s3 ← b64_index c3; s4 ← b64_index c4;
        tl ← standard_b64decode rest;
        Some (byte_of_sextets_1 s1 s2 :: byte_of_sextets_2 s2 s3
                :: byte_of_sextets_3 s3 s4 :: tl)
  | _ => None
  end.

(** ** The chunk encoder *)

(** [serialize_gr_command] lives in kittens/tui/operations.py; its output is
    recorded as the command and payload it was given. *)
Definition write_gr_cmd (cmd : gmap string value) (payload : option (list byte))
  : M unit :=
  emit (GrCmd cmd payload).

(** [cmd[key]]. *)
Definition getitem (cmd : gmap string value) (key : string) : result value :=
  match cmd !! key with
  | Some v => Ok v
  | None => Raise (KeyError key)
  end.

(** The protocol's limit on the payload of one escape sequence. *)
Definition chunk_size : nat := 4096.

Lemma drop_chunk_shorter {A} (b : A) (bs : list A) :
  (length (drop chunk_size (b :: bs)) < S (length bs))%nat.
Proof. rewrite length_drop. simpl. unfold chunk_size. lia. Qed.

Section Encoder.

(** [zlib.compress] at its default level. *)
Variable zlib_compress : list byte -> list byte.

(** The [while data:] loop of [write_chunked]. *)
#[local] Opaque chunk_size.
Equations? write_chunks (cmd : gmap string value) (data : list byte)
  : M (gmap string value) by wf (length data) lt :=
  write_chunks cmd [] := ret cmd;
  write_chunks cmd (b :: bs) :=
    let chunk := take chunk_size (b :: bs) in
    let data := drop chunk_size (b :: bs) in
    let m := if decide (data = []) then 0 else 1 in
    let cmd := <["m" := VInt m]> cmd in
    let* _ := write_gr_cmd cmd (Some chunk) in
    write_chunks ∅ data.
Proof. apply drop_chunk_shorter. Qed.
#[local] Transparent chunk_size.

Definition write_chunked (cmd : gmap string value) (data : list byte)
  : M (gmap string value) :=
  let* f := lift (getitem cmd "f") in
  let '(cmd, data) :=
    if decide (f <> VInt 100)
    then (<["o" := VStr "z"]> cmd, zlib_compress data)
    else (cmd, data) in
  let data := standard_b64encode data in
  write_chunks cmd data.

End Encoder.

(** ** Capability detection *)

(** The start of a response frame: ESC _ G i = *)
Definition response_prefix : list byte := ESC :: B "_Gi=".

Definition strip_prefix (p buf : list byte) : option (list byte) :=
  if decide (take (length p) buf = p) then Some (drop (length p) buf) else None.

(** The tail [(.+?)\033\\] of the response pattern, tried at the start of
    [buf]: the shortest non-empty run of bytes other than newline that is
    followed by ESC backslash.  Returns the run and what follows the
    terminator. *)
Fixpoint lazy_payload (buf : list byte) : option (list byte * list byte) :=
  match buf with
  | [] => None
  | c :: rest =>
      if decide (c = NEWLINE) then None
      else
        match strip_prefix [ESC; BACKSLASH] rest with
        | Some rest' => Some ([c], rest')
        | None =>
            match lazy_payload rest with
            | Some (p, rest') => Some (c :: p, rest')
            | None => None
            end
        end
  end.

(** [re.match] of [\033_Gi=([1|2]);(.+?)\033\\] at the start of [buf]:
    group 1, group 2 and the bytes after the match. *)
Definition match_here (buf : list byte) : option (byte * list byte * list byte) :=
  match strip_prefix response_prefix buf with
  | Some (iid :: semi :: rest) =>
      if decide (iid ∈ B "1|2" ∧ semi = ";"%byte) then
        match lazy_payload rest with
        | Some (payload, rest') => Some (iid, payload, rest')
        | None => None
        end
      else None
  | _ => None
  end.

Lemma lazy_payload_shorter buf p rest :
  lazy_payload buf = Some (p, rest) -> (length rest < length buf)%nat.
Proof.
  revert p rest. induction buf as [|c buf IH]; intros p rest; simpl; [done|].
  destruct (decide (c = NEWLINE)); [done|].
  unfold strip_prefix. destruct (decide _) as [E|_].
  - intros [= <- <-]. rewrite length_drop. simpl. lia.
  - destruct (lazy_payload buf) as [[p' r']|]; [|done].
    intros [= <- <-]. specialize (IH _ _ eq_refl). lia.
Qed.

Lemma match_here_shorter buf iid p rest :
  match_here buf = Some (iid, p, rest) -> (length rest < length buf)%nat.
Proof.
  unfold match_here, strip_prefix. destruct (decide _) as [_|_]; [|done].
  destruct (drop _ buf) as [|i [|s r]] eqn:E; [done..|].
  destruct (decide _); [|done].
  destruct (lazy_payload r) as [[p' r']|] eqn:L; [|done].
  intros [= <- <- <-]. apply lazy_payload_shorter in L.
  apply (f_equal length) in E. rewrite length_drop in E. simpl in E. lia.
Qed.

Definition inspect {A} (a : A) : {b : A | a = b} := exist _ a eq_refl.

(** [re.finditer]: the non-overlapping matches, scanning from the left. *)
Equations? finditer (buf : list byte) : list (byte * list byte)
  by wf (length buf) lt :=
  finditer [] := [];
  finditer (c :: rest) with inspect (match_here (c :: rest)) := {
    | exist _ (Some (iid, payload, rest')) _ => (iid, payload) :: finditer rest'
    | exist _ None _ => finditer rest }.
Proof.
  apply match_here_shorter in e. simpl in e. lia.
Qed.

Definition frame (iid : string) (payload : string) : list byte :=
  ESC :: B "_Gi=" ++ B iid ++ B ";" ++ B payload ++ [ESC; BACKSLASH].

(** [int(iid.decode('ascii'))] on a one-digit string. *)
Definition int_of_digit (b : byte) : Z := Z.of_N (Byte.to_N b) - 48.

(** The body of the loop of [parse_responses], for one match. *)
Definition record_response (responses : gmap Z bool) (m : byte * list byte)
  : gmap Z bool :=
  let '(iid, payload) := m in
  if decide (iid ∈ ["1"%byte; "2"%byte]) then
    let iid := int_of_digit iid in
    match responses !! iid with
    | None => <[iid := bool_decide (payload = B "OK")]> responses
    | Some _ => responses
    end
  else responses.

Definition parse_responses (received : list byte) (responses : gmap Z bool)
  : gmap Z bool :=
  foldl record_response responses (finditer received).

(** [more_needed], with the two variables it closes over made explicit. *)
Definition more_needed (st : list byte * gmap Z bool) (data : list byte)
  : (list byte * gmap Z bool) * bool :=
  let received := st.1 ++ data in
  let responses := parse_responses received st.2 in
  ((received, responses),
   bool_decide (responses !! 1 = None) || bool_decide (responses !! 2 = None)).

(** Modelled from the spec: [TTYIO.recv] of kitty/utils.py, which is not part
    of this file.  The receive loop reads from the terminal under an overall
    deadline, hands each piece of input to the callback and stops when the
    callback asks for no more or when the deadline passes.  [chunks] is the
    input that arrives before the deadline, in the pieces it is read in. *)
Fixpoint recv {S : Type} (callback : S -> list byte -> S * bool) (st : S)
    (chunks : list (list byte)) : S :=
  match chunks with
  | [] => st
  | data :: chunks' =>
      let '(st', more) := callback st data in
      if more then recv callback st' chunks' else st'
  end.

Definition CR : string := String (ascii_of_nat 13) "".
Definition NL : string := String (ascii_of_nat 10) "".

Section Detector.

(** [str.format] on a float. *)
Variable format_float : Q -> string.
(** The encoded name of the temporary file holding the probe data. *)
Variable probe_file_name : list byte.

Definition detect_support (wait_for : Q) (silent : bool)
    (chunks : list (list byte)) : M (bool * bool) :=
  let* _ :=
    if silent then ret tt
    else emit (Print ("Checking for graphics (" +:+ format_float wait_for
                        +:+ "s max. wait)..." +:+ CR)) in
  let* _ :=
    write_gr_cmd
      (<["a" := VStr "q"]> (<["s" := VInt 1]> (<["v" := VInt 1]>
         (<["i" := VInt 1]> ∅))))
      (Some (standard_b64encode (B "abcd"))) in
  let* _ :=
    write_gr_cmd
      (<["a" := VStr "q"]> (<["s" := VInt 1]> (<["v" := VInt 1]>
         (<["i" := VInt 2]> (<["t" := VStr "f"]> ∅)))))
      (Some (standard_b64encode probe_file_name)) in
  let '(received, responses) := recv more_needed ([], ∅) chunks in
  let* _ := if silent then ret tt else emit (Write (ESC :: B "[J")) in
  let has_files := default false (responses !! 2) in
  ret (default false (responses !! 1), has_files).

End Detector.

(** ** Showing one image *)

Record ImageMeta : Type := mkImageMeta {
  m_width : Z;
  m_height : Z;
  m_mode : string;
  m_fmt : string
}.

Record Args : Type := mkArgs {
  args_align : string;
  args_place : option Place;
  args_scale_up : bool;
  args_clear : bool;
  args_transfer_mode : string;
  args_detect_support : bool;
  args_detection_timeout : Q;
  args_print_window_size : bool
}.

(** [a > b] for an integer [a] and an integer or float [b]; Python compares
    the two exactly. *)
Definition gt_float (a : Z) (b : float) : bool :=
  match b with
  | Finite q => negb (Qle_bool (inject_Z a) q)
  | Infinity negative => negative
  end.

(** [cells * (pixels / count)], line 180 or 181 of [process] under a place:
    the division first, then the product of the converted cell count with
    the quotient. *)
Definition cells_to_pixels (cells pixels count : Z) : result float :=
  let? q := float_truediv pixels count in
  let? n := float_of_int cells in
  Ok (float_mul n q).

(** The box the image may fill (lines 180-181 of [process]). *)
Definition available_box (ss : ScreenSize) (place : option Place) (m : ImageMeta)
  : result (float * float) :=
  let? available_width :=
    match place with
    | Some p => cells_to_pixels (place_width p) (ss_width ss) (ss_cols ss)
    | None => Ok (Finite (inject_Z (ss_width ss)))
    end in
  let? available_height :=
    match place with
    | Some p => cells_to_pixels (place_height p) (ss_height ss) (ss_rows ss)
    | None => Ok (Finite (inject_Z (10 * m_height m)))
    end in
  Ok (available_width, available_height).

(** Lines 182-183 of [process]. *)
Definition needs_scaling (m : ImageMeta) (box : float * float) (scale_up : bool)
  : bool :=
  let needs_scaling := gt_float (m_width m) box.1 || gt_float (m_height m) box.2 in
  needs_scaling || scale_up.

Section Kitten.

Variable screen_size : ScreenSize.
Variable zlib_compress : list byte -> list byte.
(** [identify] and [convert] of kittens/tui/images.py. *)
Variable identify : string -> result ImageMeta.
Variable convert :
  string -> ImageMeta -> float -> float -> bool -> result (string * Z * Z).
(** [open(path, 'rb').read()] and [os.path.abspath(path).encode(fsenc)]. *)
Variable read_file : string -> result (list byte).
Variable abspath_fsenc : string -> list byte.
(** [has_files] is the attribute [detect_support.has_files]. *)
Definition show (has_files : bool) (outfile : string) (width height fmt : Z)
    (transmit_mode : string) (align : string) (place : option Place)
  : M unit :=
  let cmd : gmap string value :=
    <["a" := VStr "T"]> (<["f" := VInt fmt]> (<["s" := VInt width]>
      (<["v" := VInt height]> ∅))) in
  let* cmd :=
    match place with
    | Some place => set_cursor_for_place screen_size place cmd width height align
    | None => set_cursor screen_size cmd width height align
    end in
  if has_files then
    let cmd := <["t" := VStr transmit_mode]> cmd in
    write_gr_cmd cmd (Some (standard_b64encode (abspath_fsenc outfile)))
  else
    let* data := lift (read_file outfile) in
    let* _ :=
      if decide (transmit_mode = "t") then emit (Unlink outfile) else ret tt in
    let cmd :=
      if decide (fmt = 100) then <["S" := VInt (Z.of_nat (length data))]> cmd
      else cmd in
    let* _ := write_chunked zlib_compress cmd data in
    ret tt.

(** [is_tempfile] is [None] when the caller leaves the third positional
    argument out: the call then raises before the body runs. *)
Definition process (has_files : bool) (path : string) (args : Args)
    (is_tempfile : option bool) : M unit :=
  match is_tempfile with
  | None =>
      raise (TypeError
        "process() missing 1 required positional argument: 'is_tempfile'")
  | Some is_tempfile =>
      let* m := lift (identify path) in
      let ss := screen_size in
      let* box := lift (available_box ss (args_place args) m) in
      let '(available_width, available_height) := box in
      let needs_scaling := needs_scaling m box (args_scale_up args) in
      let* (outfile, width, height, fmt, transmit_mode) :=
        if bool_decide (m_fmt m = "png") && negb needs_scaling then
          ret (path, m_width m, m_height m, 100,
               if is_tempfile then "t" else "f")
        else
          let fmt := if decide (m_mode m = "rgb") then 24 else 32 in
          let* (outfile, width, height) :=
            lift (convert path m available_width available_height
                    (args_scale_up args)) in
          ret (outfile, width, height, fmt, "t") in
      let* _ :=
        show has_files outfile width height fmt transmit_mode
          (args_align args) (args_place args) in
      match args_place args with
      | None => emit (Print NL)
      | Some _ => ret tt
      end
  end.

(** [for x in l: body(x)]. *)
Fixpoint for_each {A : Type} (l : list A) (body : A -> M unit) : M unit :=
  match l with
  | [] => ret tt
  | x :: l' => let* _ := body x in for_each l' body
  end.

(** ** Scanning directories *)

(** [os.walk], [mimetypes.guess_type(f)[0]] and [os.path.join]. *)
Variable os_walk : string -> list (string * list string * list string).
Variable guess_type : string -> option string.
Variable path_join : string -> string -> string.

Definition scan (d : string) : list (string * string) :=
  '(dirpath, dirnames, filenames) ← os_walk d;
  f ← filenames;
  match guess_type f with
  | Some mt =>
      if String.prefix "image/" mt then [(path_join dirpath f, mt)] else []
  | None => []
  end.

(** ** Parsing the place *)

(** Text strings hold UTF-8; [int()] reads code points.  [utf8_decode]
    gives the code points of a well-formed string and [None] for bytes that
    are not UTF-8 (in Python these are lone surrogates, which [int()]
    refuses like any other character that is neither a digit nor a blank). *)

Definition is_continuation (c : ascii) : bool :=
  let n := N_of_ascii c in ((128 <=? n) && (n <? 192))%N.

Definition continuation_bits (c : ascii) : N := (N_of_ascii c - 128)%N.

Fixpoint utf8_decode (s : string) : option (list N) :=
  match s with
  | EmptyString => Some []
  | String c0 s1 =>
      let n := N_of_ascii c0 in
      if (n <? 128)%N then cons n <$> utf8_decode s1
      else
        match s1 with
        | String c1 s2 =>
            if ((194 <=? n) && (n <? 224))%N then
              if is_continuation c1 then
                cons ((n - 192) * 64 + continuation_bits c1)%N
                  <$> utf8_decode s2
              else None
            else
              match s2 with
              | String c2 s3 =>
                  if ((224 <=? n) && (n <? 240))%N then
                    let cp := ((n - 224) * 4096 + continuation_bits c1 * 64
                               + continuation_bits c2)%N in
                    if is_continuation c1 && is_continuation c2
                       && (2048 <=? cp)%N
                       && negb ((55296 <=? cp) && (cp <? 57344))%N
                    then cons cp <$> utf8_decode s3
                    else None
                  else
                    match s3 with
                    | String c3 s4 =>
                        let cp := ((n - 240) * 262144
                                   + continuation_bits c1 * 4096
                                   + continuation_bits c2 * 64
                                   + continuation_bits c3)%N in
                        if ((240 <=? n) && (n <? 245))%N
                           && is_continuation c1 && is_continuation c2
                           && is_continuation c3
                           && ((65536 <=? cp) && (cp <? 1114112))%N
                        then cons cp <$> utf8_decode s4
                        else None
                    | EmptyString => None
                    end
              | EmptyString => None
              end
        | EmptyString => None
        end
  end.

(** [Py_UNICODE_ISSPACE]. *)
Definition unicode_isspace (cp : N) : bool :=
  ((9 <=? cp) && (cp <=? 13) || (28 <=? cp) && (cp <=? 32)
   || (cp =? 133) || (cp =? 160) || (cp =? 5760)
   || (8192 <=? cp) && (cp <=? 8202)
   || (cp =? 8232) || (cp =? 8233) || (cp =? 8239) || (cp =? 8287)
   || (cp =? 12288))%N.

(** [Py_ISSPACE], the blanks skipped around the digits. *)
Definition ascii_isspace (c : N) : bool :=
  ((9 <=? c) && (c <=? 13) || (c =? 32))%N.

(** [Py_UNICODE_TODECIMAL]: the value of a code point that is a decimal
    digit in the Unicode database of the interpreter. *)
Variable unicode_decimal : N -> option N.

(** What [int()] makes of one code point before it parses: ASCII is kept, any
    other blank becomes a space, any other decimal digit its ASCII digit, and
    anything else a question mark. *)
Definition to_ascii (cp : N) : N :=
  if (cp <? 128)%N then cp
  else if unicode_isspace cp then 32%N
  else
    match unicode_decimal cp with
    | Some d => (48 + d)%N
    | None => 63%N
    end.

Definition digit_value (c : N) : option Z :=
  if ((48 <=? c) && (c <=? 57))%N then Some (Z.of_N (c - 48)) else None.

Fixpoint skip_spaces (l : list N) : list N :=
  match l with
  | c :: l' => if ascii_isspace c then skip_spaces l' else l
  | [] => []
  end.

(** Decimal digits with single underscores between them, then blanks up to
    the end. *)
Fixpoint parse_digits (acc : Z) (after_digit : bool) (l : list N) : option Z :=
  match l with
  | [] => if after_digit then Some acc else None
  | c :: l' =>
      match digit_value c with
      | Some d => parse_digits (10 * acc + d) true l'
      | None =>
          if (c =? 95)%N then
            if after_digit then parse_digits acc false l' else None
          else if after_digit && bool_decide (skip_spaces l = []) then Some acc
          else None
      end
  end.

(** [sys.get_int_max_str_digits()]: the longest run of digits [int()]
    converts, 0 for no limit; an interpreter that has no such limit behaves
    as with 0. *)
Variable int_max_str_digits : N.

Definition count_digits (l : list N) : N :=
  N.of_nat (length (filter (fun c => is_Some (digit_value c)) l)).

(** [int(s)]: blanks, an optional sign, decimal digits, blanks. *)
Definition py_int (s : string) : result Z :=
  match utf8_decode s with
  | None => Raise ValueError
  | Some cps =>
      let l := skip_spaces (to_ascii <$> cps) in
      let '(sign, digits) :=
        match l with
        | 45%N :: l' => (-1, l')
        | 43%N :: l' => (1, l')
        | _ => (1, l)
        end in
      match parse_digits 0 false digits with
      | Some n =>
          if ((0 <? int_max_str_digits)
              && (int_max_str_digits <? count_digits digits))%N
          then Raise ValueError
          else Ok (sign * n)
      | None => Raise ValueError
      end
  end.

(** [s.split(sep)] for a one-character separator. *)
Fixpoint split (sep : ascii) (s : string) : list string :=
  match s with
  | EmptyString => [EmptyString]
  | String c s' =>
      if decide (c = sep) then EmptyString :: split sep s'
      else
        match split sep s' with
        | h :: t => String c h :: t
        | [] => [String c EmptyString]
        end
  end.

(** [s.split(sep, 1)]. *)
Fixpoint split1 (sep : ascii) (s : string) : list string :=
  match s with
  | EmptyString => [EmptyString]
  | String c s' =>
      if decide (c = sep) then [EmptyString; s']
      else
        match split1 sep s' with
        | h :: t => String c h :: t
        | [] => [String c EmptyString]
        end
  end.

(** [a, b = map(int, parts)]. *)
Definition unpack_ints (parts : list string) : result (Z * Z) :=
  match parts with
  | [a; b] =>
      let? a := py_int a in
      let? b := py_int b in
      Ok (a, b)
  | _ => Raise ValueError
  end.

Definition parse_place (raw : option string) : result (option Place) :=
  match raw with
  | None | Some EmptyString => Ok None
  | Some raw =>
      match split1 "@" raw with
      | [area; pos] =>
          let? (w, h) := unpack_ints (split "x" area) in
          let? (l, t) := unpack_ints (split "x" pos) in
          Ok (Some (mkPlace w h l t))
      | _ => Raise ValueError
      end
  end.

(** ** The command line *)

Inductive item : Type :=
| PathItem (path : string)      (* a str *)
| BytesItem (data : list byte). (* the bytes read from STDIN *)

(** What the terminal sends before the detection deadline, the data on
    STDIN when it is not a terminal, the name given to the temporary file
    holding that data, [os.path.isdir], the bytes returned by
    [clear_images_on_screen(delete_data=True)], and the collaborators of
    [detect_support]. *)
Variable terminal_input : list (list byte).
Variable stdin_data : option (list byte).
Variable stdin_tempfile : string.
Variable isdir : string -> bool.
Variable clear_images_on_screen : list byte.
Variable format_float : Q -> string.
Variable probe_file_name : list byte.

Definition str_of_Z (n : Z) : string := NilZero.string_of_int (Z.to_int n).

(** [str(e)]. *)
Definition exn_message (e : exn) : string :=
  match e with
  | OpenFailed msg | ConvertFailed msg | NoImageMagick msg
  | OSError msg | TypeError msg | OverflowError msg => msg
  | KeyError key => key
  | SystemExit (ExitMsg msg) => msg
  | SystemExit (ExitCode n) => str_of_Z n
  | ZeroDivisionError => "division by zero"
  | ValueError => "invalid value"
  end.

Definition with_place (args : Args) (place : option Place) : Args :=
  mkArgs (args_align args) place (args_scale_up args) (args_clear args)
    (args_transfer_mode args) (args_detect_support args)
    (args_detection_timeout args) (args_print_window_size args).

(** The body of [for item in items], returning what it appends to
    [errors]. *)
Definition main_item (has_files : bool) (args : Args) (it : item)
  : M (list exn) :=
  try_except
    (let* (item, is_tempfile) :=
       match it with
       | BytesItem data =>
           let* _ := emit (CreateTemp stdin_tempfile data) in
           ret (stdin_tempfile, true)
       | PathItem path => ret (path, false)
       end in
     let* _ :=
       if isdir item then
         for_each (scan item) (fun x => process has_files item args None)
       else
         process has_files item args (Some is_tempfile) in
     ret [])
    (fun e =>
       match e with
       | NoImageMagick msg => raise (SystemExit (ExitMsg msg))
       | ConvertFailed msg => raise (SystemExit (ExitMsg msg))
       | OpenFailed msg => ret [e]
       | _ => raise e
       end).

Fixpoint main_loop (has_files : bool) (args : Args) (items : list item)
  : M (list exn) :=
  match items with
  | [] => ret []
  | it :: items' =>
      let* errs := main_item has_files args it in
      let* errs' := main_loop has_files args items' in
      ret (errs ++ errs')
  end.

(** [raw_place] is the value of [--place] as typed; [args.place] is
    replaced by the parsed place. *)
Definition main (raw_place : option string) (args : Args) (items : list item)
  : M unit :=
  if args_print_window_size args then
    let ss := screen_size in
    let* _ := emit (Print (str_of_Z (ss_width ss) +:+ "x"
                             +:+ str_of_Z (ss_height ss))) in
    raise (SystemExit (ExitCode 0))
  else
  let items :=
    match stdin_data with
    | Some data => BytesItem data :: items
    | None => items
    end in
  if decide (ss_width screen_size = 0) then
    if args_detect_support args then raise (SystemExit (ExitCode 1))
    else raise (SystemExit (ExitMsg
      "Terminal does not support reporting screen sizes via the TIOCGWINSZ ioctl"))
  else
  let* place :=
    match parse_place raw_place with
    | Ok place => ret place
    | Raise _ =>
        raise (SystemExit (ExitMsg ("Not a valid place specification: "
                                      +:+ default "None" raw_place)))
    end in
  let args := with_place args place in
  if args_detect_support args then
    let* (supported, has_files) :=
      detect_support format_float probe_file_name
        (args_detection_timeout args) true terminal_input in
    if negb supported then raise (SystemExit (ExitCode 1))
    else emit (PrintErr (if has_files then "file" else "stream"))
  else
  let* has_files :=
    if decide (args_transfer_mode args = "detect") then
      let* (supported, has_files) :=
        detect_support format_float probe_file_name
          (args_detection_timeout args) false terminal_input in
      if negb supported then
        raise (SystemExit (ExitMsg
          "This terminal emulator does not support the graphics protocol, use a terminal emulator such as kitty that does support it"))
      else ret has_files
    else ret (bool_decide (args_transfer_mode args = "file")) in
  let* stop :=
    if args_clear args then
      let* _ := emit (Write clear_images_on_screen) in
      ret (bool_decide (items = []))
    else ret false in
  if stop then ret tt
  else if decide (items = []) then
    raise (SystemExit (ExitMsg "You must specify at least one file to cat"))
  else
  let* _ :=
    match args_place args with
    | Some _ =>
        if (1 <? length items)%nat
           || match items with
              | PathItem path :: _ => isdir path
              | _ => false
              end
        then raise (SystemExit (ExitMsg
               "The --place option can only be used with a single image"))
        else emit (Write (ESC :: B "7"))
    | None => ret tt
    end in
  let* errors := main_loop has_files args items in
  let* _ :=
    match args_place args with
    | Some _ => emit (Write (ESC :: B "8"))
    | None => ret tt
    end in
  if decide (errors = []) then ret tt
  else
    let* _ := for_each errors
                (fun err => emit (PrintErr (exn_message err +:+ NL))) in
    raise (SystemExit (ExitCode 1)).

End Kitten.

(** ** Observations on the output *)

(** The graphics frames among the events, each with the command it carries
    and its payload. *)
Definition frames_of (out : list event) : list (gmap string value * list byte) :=
  omap (fun ev =>
          match ev with
          | GrCmd cmd (Some payload) => Some (cmd, payload)
          | _ => None
          end) out.

(** The more-chunks flag of a frame. *)
Definition more_flag (fr : gmap string value * list byte) : option value :=
  fr.1 !! "m".

(** The receiving side of a chunked transfer: concatenate the payloads in
    the order of arrival, decode, and decompress when the first frame carries
    [o=z]. *)
Definition receive (zlib_decompress : list byte -> option (list byte))
    (frames : list (gmap string value * list byte)) : option (list byte) :=
  raw ← standard_b64decode (concat (snd <$> frames));
  match frames with
  | (cmd, _) :: _ =>
      if decide (cmd !! "o" = Some (VStr "z")) then zlib_decompress raw
      else Some raw
  | [] => Some raw
  end.

(** The payload of the first match carrying the probe id [iid]. *)
Definition first_payload (iid : byte) (matches : list (byte * list byte))
  : option (list byte) :=
  snd <$> head (filter (fun m => m.1 = iid) matches).

(** Whether the first response to probe [iid] in the buffer is OK. *)
Definition first_response_ok (iid : byte) (matches : list (byte * list byte))
  : bool :=
  bool_decide (first_payload iid matches = Some (B "OK")).

(** Whether the first response to probe [iid], if any, is OK. *)
Definition ok_of (iid : byte) (ms : list (byte * list byte)) : option bool :=
  (fun p => bool_decide (p = B "OK")) <$> first_payload iid ms.

(** [R] holds, for both probes, the first response found in [buf]. *)
Definition recorded (buf : list byte) (R : gmap Z bool) : Prop :=
  forall iid, iid ∈ ["1"%byte; "2"%byte] ->
    R !! int_of_digit iid = ok_of iid (finditer buf).

(** A stand-in for zlib with a two-byte header, to run the encoder on
    concrete buffers. *)
Definition stored_compress (data : list byte) : list byte :=
  Byte.x78 :: Byte.x9c :: data.
Definition stored_decompress (data : list byte) : option (list byte) :=
  match data with
  | h1 :: h2 :: data' =>
      if decide (h1 = Byte.x78 ∧ h2 = Byte.x9c) then Some data' else None
  | _ => None
  end.

(** The cell width and the number of cells an image needs, as [set_cursor]
    and [set_cursor_for_place] compute them. *)
Definition cell_width (ss : ScreenSize) : result Z :=
  let? q := truediv (ss_width ss) (ss_cols ss) in
  Ok (int_of_float q).

Definition cells_needed (ss : ScreenSize) (width : Z) : result Z :=
  let? cw := cell_width ss in
  let? q := truediv width cw in
  Ok (ceil q).

(** [extra_cells] of [set_cursor_for_place]. *)
Definition extra_cells (place : Place) (num_of_cells_needed : Z) (align : string)
  : Z :=
  if decide (align = "center") then (place_width place - num_of_cells_needed) / 2
  else if decide (align = "right") then place_width place - num_of_cells_needed
  else 0.

(** The placement step of [show], and the command [show] starts from. *)
Definition place_cursor (ss : ScreenSize) (place : option Place)
    (cmd : gmap string value) (width height : Z) (align : string)
  : M (gmap string value) :=
  match place with
  | Some place => set_cursor_for_place ss place cmd width height align
  | None => set_cursor ss cmd width height align
  end.

Definition show_command (fmt width height : Z) : gmap string value :=
  <["a" := VStr "T"]> (<["f" := VInt fmt]> (<["s" := VInt width]>
    (<["v" := VInt height]> ∅))).

(** The computation returned the finite float [q]. *)
Definition float_is (x : result float) (q : Q) : bool :=
  match x with
  | Ok (Finite y) => Qeq_bool y q
  | _ => false
  end.

(** Events that are raw writes to the terminal. *)
Definition is_write (ev : event) : Prop :=
  match ev with Write _ => True | _ => False end.

(** The two probe commands [detect_support] sends. *)
Definition probe_events (probe_file_name : list byte) : list event :=
  [GrCmd (<["a" := VStr "q"]> (<["s" := VInt 1]> (<["v" := VInt 1]>
            (<["i" := VInt 1]> ∅))))
     (Some (standard_b64encode (B "abcd")));
   GrCmd (<["a" := VStr "q"]> (<["s" := VInt 1]> (<["v" := VInt 1]>
            (<["i" := VInt 2]> (<["t" := VStr "f"]> ∅)))))
     (Some (standard_b64encode probe_file_name))].

(** The items [main] loops over: the data on STDIN, if any, first. *)
Definition all_items (stdin_data : option (list byte)) (items : list item)
  : list item :=
  match stdin_data with
  | Some data => BytesItem data :: items
  | None => items
  end.

(** ** The specification's wording, for comparison *)

(** Section 4.3: 0 for left alignment or when the width divides evenly,
    otherwise the remainder for right alignment and half the remainder for
    center alignment. *)
Definition spec_in_cell_x_offset (width cell_width : Z) (align : string) : Z :=
  if decide (align = "left" ∨ width mod cell_width = 0) then 0
  else if decide (align = "right") then width mod cell_width
  else (width mod cell_width) / 2.

(** Section 4.5: without a place the box is the terminal width by ten screen
    heights, and scaling is needed when the image exceeds the box or the
    scale-up flag is set. *)
Definition spec_available_box (ss : ScreenSize) : Z * Z :=
  (ss_width ss, 10 * ss_height ss).

Definition spec_needs_scaling (ss : ScreenSize) (m : ImageMeta) (scale_up : bool)
  : bool :=
  let '(w, h) := spec_available_box ss in
  (w <? m_width m) || (h <? m_height m) || scale_up.

(** Section 8: the cursor column for a place is
    [left + 1 + floor((width - cells) / 2) + 1]. *)
Definition spec_place_column (place : Place) (num_of_cells_needed : Z) : Z :=
  place_left place + 1 + (place_width place - num_of_cells_needed) / 2 + 1.

(** Section 4.4: the pattern [ESC _ G i = (1|2) ; (.*?) ESC \]. *)
Fixpoint spec_lazy_payload (buf : list byte) : option (list byte * list byte) :=
  match strip_prefix [ESC; BACKSLASH] buf with
  | Some rest => Some ([], rest)
  | None =>
      match buf with
      | [] => None
      | c :: rest =>
          if decide (c = NEWLINE) then None
          else
            match spec_lazy_payload rest with
            | Some (p, rest') => Some (c :: p, rest')
            | None => None
            end
      end
  end.

Definition spec_match_here (buf : list byte)
  : option (byte * list byte * list byte) :=
  match strip_prefix response_prefix buf with
  | Some (iid :: semi :: rest) =>
      if decide (iid ∈ B "12" ∧ semi = ";"%byte) then
        match spec_lazy_payload rest with
        | Some (payload, rest') => Some (iid, payload, rest')
        | None => None
        end
      else None
  | _ => None
  end.

Lemma spec_lazy_payload_shorter buf p rest :
  spec_lazy_payload buf = Some (p, rest) -> (length rest <= length buf)%nat.
Proof.
  revert p rest. induction buf as [|c buf IH]; intros p rest; simpl.
  - unfold strip_prefix. simpl. done.
  - unfold strip_prefix at 1. destruct (decide _) as [E|_].
    + intros [= <- <-]. rewrite length_drop. simpl. lia.
    + destruct (decide (c = NEWLINE)); [done|].
      destruct (spec_lazy_payload buf) as [[p' r']|]; [|done].
      intros [= <- <-]. specialize (IH _ _ eq_refl). lia.
Qed.

Lemma spec_match_here_shorter buf iid p rest :
  spec_match_here buf = Some (iid, p, rest) -> (length rest < length buf)%nat.
Proof.
  unfold spec_match_here, strip_prefix. destruct (decide _) as [_|_]; [|done].
  destruct (drop _ buf) as [|i [|s r]] eqn:E; [done..|].
  destruct (decide _); [|done].
  destruct (spec_lazy_payload r) as [[p' r']|] eqn:L; [|done].
  intros [= <- <- <-]. apply spec_lazy_payload_shorter in L.
  apply (f_equal length) in E. rewrite length_drop in E. simpl in E. lia.
Qed.

Equations? spec_finditer (buf : list byte) : list (byte * list byte)
  by wf (length buf) lt :=
  spec_finditer [] := [];
  spec_finditer (c :: rest) with inspect (spec_match_here (c :: rest)) := {
    | exist _ (Some (iid, payload, rest')) _ =>
        (iid, payload) :: spec_finditer rest'
    | exist _ None _ => spec_finditer rest }.
Proof.
  apply spec_match_here_shorter in e. simpl in e. lia.
Qed.

(** The two derived facts, from the first response recorded per id. *)
Definition spec_detect (received : list byte) : bool * bool :=
  let responses := foldl record_response ∅ (spec_finditer received) in
  (default false (responses !! 1), default false (responses !! 2)).

(** ** The response pattern as it is meant

    Line 217 keeps the matches whose id is 1 or 2 and drops the others, so
    the pattern is meant to be [ESC _ G i = (1|2) ; (.+?) ESC \]: one of the
    two digits, a semicolon, and as payload the shortest run of at least one
    byte, none of them a newline, that ESC backslash follows. *)

(** The length of the longest prefix of [buf] that holds no newline. *)
Definition line_length (buf : list byte) : nat :=
  match list_find (fun c => c = NEWLINE) buf with
  | Some (i, _) => i
  | None => length buf
  end.

(** ESC backslash stands at offset [k] of [buf]. *)
Definition terminated_at (buf : list byte) (k : nat) : Prop :=
  take 2 (drop k buf) = [ESC; BACKSLASH].

#[global] Instance terminated_at_dec buf k : Decision (terminated_at buf k).
Proof. unfold terminated_at. apply _. Defined.

(** The payload is the first [k] bytes for the least [k], from 1 up to the
    end of the line, at which the terminator stands. *)
Definition design_payload (buf : list byte) : option (list byte * list byte) :=
  match list_find (terminated_at buf) (seq 1 (line_length buf)) with
  | Some (_, k) => Some (take k buf, drop (k + 2) buf)
  | None => None
  end.

Definition design_match_here (buf : list byte)
  : option (byte * list byte * list byte) :=
  match strip_prefix response_prefix buf with
  | Some (iid :: semi :: rest) =>
      if decide ((iid = "1"%byte ∨ iid = "2"%byte) ∧ semi = ";"%byte) then
        match design_payload rest with
        | Some (payload, rest') => Some (iid, payload, rest')
        | None => None
        end
      else None
  | _ => None
  end.

Lemma design_payload_shorter buf p rest :
  design_payload buf = Some (p, rest) -> (length rest <= length buf)%nat.
Proof.
  unfold design_payload.
  destruct (list_find _ _) as [[i k]|]; [|done].
  intros [= <- <-]. rewrite length_drop. lia.
Qed.

Lemma design_match_here_shorter buf iid p rest :
  design_match_here buf = Some (iid, p, rest) -> (length rest < length buf)%nat.
Proof.
  unfold design_match_here, strip_prefix. destruct (decide _) as [_|_]; [|done].
  destruct (drop _ buf) as [|i [|s r]] eqn:E; [done..|].
  destruct (decide _); [|done].
  destruct (design_payload r) as [[p' r']|] eqn:L; [|done].
  intros [= <- <- <-]. apply design_payload_shorter in L.
  apply (f_equal length) in E. rewrite length_drop in E. simpl in E. lia.
Qed.

(** The non-overlapping matches of the pattern, from the left. *)
Equations? design_finditer (buf : list byte) : list (byte * list byte)
  by wf (length buf) lt :=
  design_finditer [] := [];
  design_finditer (c :: rest) with inspect (design_match_here (c :: rest)) := {
    | exist _ (Some (iid, payload, rest')) _ =>
        (iid, payload) :: design_finditer rest'
    | exist _ None _ => design_finditer rest }.
Proof.
  apply design_match_here_shorter in e. simpl in e. lia.
Qed.

(** The buffer holds the start of a frame whose id character is the bar of
    the character class [[1|2]] of line 215. *)
Fixpoint has_bar_header (buf : list byte) : bool :=
  match buf with
  | [] => false
  | _ :: rest =>
      bool_decide (is_Some (strip_prefix (response_prefix ++ B "|;") buf))
      || has_bar_header rest
  end.

(** ** A sample environment, to run the program on concrete inputs *)

Definition sample_screen : ScreenSize := mkScreenSize 800 600 80 24.
Definition sample_identify (path : string) : result ImageMeta :=
  Ok (mkImageMeta 100 50 "rgb" "png").
Definition sample_convert (path : string) (m : ImageMeta) (w h : float)
    (scale_up : bool) : result (string * Z * Z) :=
  Ok (path, 100, 50).
Definition sample_read_file (path : string) : result (list byte) :=
  Ok (B "abcd").
Definition sample_abspath (path : string) : list byte := B ("/" +:+ path).
Definition sample_walk (d : string)
  : list (string * list string * list string) :=
  [(d, [], ["a.png"; "b.txt"])].
Definition sample_guess_type (f : string) : option string :=
  if bool_decide (f = "a.png") then Some "image/png" else None.
Definition sample_join (d f : string) : string := d +:+ "/" +:+ f.
Definition sample_isdir (path : string) : bool := bool_decide (path = "pics").
Definition sample_format_float (q : Q) : string := "10.0".
Definition sample_identify_missing (path : string) : result ImageMeta :=
  Raise (OpenFailed ("Failed to open " +:+ path)).
Definition sample_args : Args :=
  mkArgs "center" None false false "stream" false 10 false.

(** An excerpt of the Unicode table of decimal digits: the first code point
    of some of its blocks of ten (Arabic-Indic, Devanagari, Thai, fullwidth,
    mathematical, ...). *)
Definition sample_digit_blocks : list N :=
  [1632; 1776; 1984; 2406; 2534; 2662; 2790; 2918; 3046; 3174; 3302; 3430;
   3664; 3792; 3872; 4160; 6112; 6160; 65296;
   120782; 120792; 120802; 120812; 120822]%N.

Definition sample_unicode_decimal (cp : N) : option N :=
  match list_find (fun z => ((z <=? cp) && (cp <? z + 10))%N)
          sample_digit_blocks with
  | Some (_, z) => Some (cp - z)%N
  | None => None
  end.

(** The default limit of the interpreters that have one. *)
Definition sample_max_str_digits : N := 4300.

(** A no-break space (U+00A0), the file separator (U+001C) and the fullwidth
    digit eight (U+FF18), in UTF-8. *)
Definition NBSP : string :=
  String (ascii_of_nat 194) (String (ascii_of_nat 160) "").
Definition FILE_SEPARATOR : string := String (ascii_of_nat 28) "".
Definition FULLWIDTH_8 : string :=
  String (ascii_of_nat 239)
    (String (ascii_of_nat 188) (String (ascii_of_nat 152) "")).

(** * Properties *)

(** ** Sanity checks of the library models *)

Example b64_abcd : standard_b64encode (B "abcd") = B "YWJjZA==".
Proof. reflexivity. Qed.
Example b64_hello : standard_b64encode (B "Hello, World") = B "SGVsbG8sIFdvcmxk".
Proof. reflexivity. Qed.
Example b64_dec_abcd : standard_b64decode (B "YWJjZA==") = Some (B "abcd").
Proof. reflexivity. Qed.
Example b64_ff : standard_b64encode [Byte.xff; Byte.xfe] = B "//4=".
Proof. reflexivity. Qed.

Example py_int_examples :
  let int := py_int sample_unicode_decimal sample_max_str_digits in
  int " 12 " = Ok 12 /\ int "-8" = Ok (-8) /\ int "+8" = Ok 8 /\
  int "1_000" = Ok 1000 /\ int "1__0" = Raise ValueError /\
  int "_1" = Raise ValueError /\ int "1_" = Raise ValueError /\
  int "" = Raise ValueError /\ int "- 8" = Raise ValueError /\
  int "0x10" = Raise ValueError /\ int "1 2" = Raise ValueError /\
  int (NBSP +:+ "8") = Ok 8 /\ int ("8" +:+ NBSP) = Ok 8 /\
  int FULLWIDTH_8 = Ok 8 /\
  int (FILE_SEPARATOR +:+ "8") = Raise ValueError /\
  int (String (ascii_of_nat 255) "8") = Raise ValueError.
Proof. vm_compute. repeat split. Qed.

(** 656 / 80 is the double next to 8.2, and 15 times it the double just
    below 123. *)
Example cells_to_pixels_15 :
  float_is (cells_to_pixels 15 656 80) (8655355533852671 # 70368744177664)
    = true.
Proof. vm_compute. reflexivity. Qed.

Example cells_to_pixels_overflow :
  cells_to_pixels (10 ^ 308) 656 80 = Ok (Infinity false) /\
  cells_to_pixels (10 ^ 309) 656 80 =
    Raise (OverflowError "int too large to convert to float") /\
  cells_to_pixels 15 656 0 = Raise ZeroDivisionError.
Proof. vm_compute. repeat split. Qed.

Example finditer_ex1 :
  finditer (B "junk" ++ frame "1" "OK" ++ frame "2" "ENOENT:x" ++ frame "|" "z")
  = [("1"%byte, B "OK"); ("2"%byte, B "ENOENT:x"); ("|"%byte, B "z")].
Proof. reflexivity. Qed.
Example finditer_ex2 :
  finditer (frame "1" "" ++ frame "2" "OK")
  = [("1"%byte, [ESC; BACKSLASH; ESC] ++ B "_Gi=2;OK")].
Proof. reflexivity. Qed.

(** ** Placement *)

Lemma gt_float_inject (a b : Z) :
  gt_float a (Finite (inject_Z b)) = (b <? a).
Proof.
  unfold gt_float, Qle_bool. simpl. rewrite !Z.mul_1_r.
  destruct (Z.leb_spec a b), (Z.ltb_spec b a); simpl; auto; lia.
Qed.

Lemma calculate_in_cell_x_offset_ok (width cw : Z) (align : string) :
  cw <> 0 ->
  calculate_in_cell_x_offset width cw align =
    Ok (if decide (align = "left") then 0
        else if decide (width mod cw = 0) then 0
        else if decide (align = "right") then cw - width mod cw
        else (cw - width mod cw) / 2).
Proof.
  intros Hcw. unfold calculate_in_cell_x_offset, pymod, rbind.
  repeat case_decide; try done.
Qed.

(** What [set_cursor_for_place] does whenever the cell count is defined:
    one cursor-position write, and the offset stored under [X]. *)
Lemma set_cursor_for_place_run ss place cmd width height align cw n :
  cell_width ss = Ok cw ->
  cells_needed ss width = Ok n ->
  exists off,
    calculate_in_cell_x_offset width cw align = Ok off /\
    set_cursor_for_place ss place cmd width height align =
      ([Write (cursor_position (place_top place + 1)
                 (place_left place + 1 + extra_cells place n align))],
       Ok (<["X" := VInt off]> cmd)).
Proof.
  unfold cells_needed, cell_width, set_cursor_for_place, extra_cells.
  destruct (truediv (ss_width ss) (ss_cols ss)) as [q|e] eqn:Hq; simpl; [|done].
  intros [= <-].
  destruct (truediv width (int_of_float q)) as [q'|e] eqn:Hq'; simpl; [|done].
  intros [= <-].
  assert (Hcw : int_of_float q <> 0).
  { unfold truediv in Hq'. case_decide; [done|assumption]. }
  rewrite (calculate_in_cell_x_offset_ok _ _ align Hcw).
  eexists. split; [reflexivity|]. simpl. reflexivity.
Qed.

(** C1, as amended: for every pixel width W >= 0, cell width C > 0 and
    alignment among left, center and right, [calculate_in_cell_x_offset]
    returns 0 for left alignment or when C divides W; otherwise it returns
    what is missing to the next cell boundary, C - (W mod C), for right
    alignment, and half of that, (C - (W mod C)) div 2 rounded down, for
    center alignment. *)
Theorem calculate_in_cell_x_offset_value (W C : Z) (align : string) :
  0 <= W -> 0 < C ->
  align = "left" \/ align = "center" \/ align = "right" ->
  calculate_in_cell_x_offset W C align =
    Ok (if decide (align = "left" \/ W mod C = 0) then 0
        else if decide (align = "right") then C - W mod C
        else (C - W mod C) / 2).
Proof.
  intros _ HC _. rewrite calculate_in_cell_x_offset_ok by lia.
  f_equal. repeat case_decide; try reflexivity; tauto.
Qed.

Lemma calculate_in_cell_x_offset_value_witness :
  calculate_in_cell_x_offset 45 10 "center" = Ok 2.
Proof.
  rewrite (calculate_in_cell_x_offset_value 45 10 "center");
    [reflexivity | lia | lia | auto].
Defined.

(** C1 as the specification words it fails: for a width of 1 pixel in cells
    of 3 pixels, right alignment gives 2 where the remainder is 1, and center
    alignment of 5 pixels in cells of 8 gives 1 where half the remainder
    is 2. *)
Lemma calculate_in_cell_x_offset_not_remainder :
  calculate_in_cell_x_offset 1 3 "right" = Ok 2 /\
  spec_in_cell_x_offset 1 3 "right" = 1 /\
  calculate_in_cell_x_offset 5 8 "center" = Ok 1 /\
  spec_in_cell_x_offset 5 8 "center" = 2.
Proof. repeat split. Qed.

(** C3, as amended: for the rectangle 8x4@2x3 and an image needing 5 cells,
    at center alignment, [set_cursor_for_place] writes the cursor-position
    sequence for row 4 and column 4, that is column 2+1+floor((8-5)/2). *)
Theorem set_cursor_for_place_8x4_at_2x3 ss cmd width height :
  cells_needed ss width = Ok 5 ->
  exists off,
    set_cursor_for_place ss (mkPlace 8 4 2 3) cmd width height "center" =
      ([Write (ESC :: B "[4;4H")], Ok (<["X" := VInt off]> cmd)).
Proof.
  intros Hn.
  destruct (cell_width ss) as [cw|e] eqn:Hcw.
  - destruct (set_cursor_for_place_run ss (mkPlace 8 4 2 3) cmd width height
                "center" cw 5 Hcw Hn) as (off & _ & ->).
    exists off. reflexivity.
  - unfold cells_needed in Hn. rewrite Hcw in Hn. discriminate.
Qed.

Lemma set_cursor_for_place_8x4_at_2x3_witness :
  exists off,
    set_cursor_for_place (mkScreenSize 800 600 80 24) (mkPlace 8 4 2 3) ∅
      45 30 "center" =
      ([Write (ESC :: B "[4;4H")], Ok (<["X" := VInt off]> ∅)).
Proof.
  apply (set_cursor_for_place_8x4_at_2x3 (mkScreenSize 800 600 80 24) ∅ 45 30).
  reflexivity.
Defined.

(** C3 as the specification words it fails: the code writes column 4, the
    formula of section 8 gives column 5. *)
Lemma set_cursor_for_place_column_not_5 :
  fst (set_cursor_for_place (mkScreenSize 800 600 80 24) (mkPlace 8 4 2 3) ∅
         45 30 "center") = [Write (ESC :: B "[4;4H")] /\
  cells_needed (mkScreenSize 800 600 80 24) 45 = Ok 5 /\
  spec_place_column (mkPlace 8 4 2 3) 5 = 5.
Proof. repeat split. Qed.

(** C8, as amended: for a place narrower than the image's cell footprint,
    [set_cursor_for_place] raises nothing and clamps nothing: it writes the
    cursor-position sequence for column place.left+1+extraCells, where
    extraCells is negative for center and right alignment (left of the
    rectangle's origin) and is 0 for any other alignment, left included. *)
Theorem set_cursor_for_place_narrow ss place cmd width height align n :
  cells_needed ss width = Ok n ->
  place_width place < n ->
  (exists off,
     set_cursor_for_place ss place cmd width height align =
       ([Write (cursor_position (place_top place + 1)
                  (place_left place + 1 + extra_cells place n align))],
        Ok (<["X" := VInt off]> cmd))) /\
  (align = "center" \/ align = "right" -> extra_cells place n align < 0) /\
  (align <> "center" -> align <> "right" -> extra_cells place n align = 0).
Proof.
  intros Hn Hlt. split; [|split].
  - destruct (cell_width ss) as [cw|e] eqn:Hcw.
    + destruct (set_cursor_for_place_run ss place cmd width height align cw n
                  Hcw Hn) as (off & _ & ->).
      by exists off.
    + unfold cells_needed in Hn. rewrite Hcw in Hn. discriminate.
  - unfold extra_cells. intros [-> | ->]; simpl.
    + apply Z.div_lt_upper_bound; lia.
    + lia.
  - intros H1 H2. unfold extra_cells. by repeat case_decide.
Qed.

Lemma set_cursor_for_place_narrow_witness :
  set_cursor_for_place (mkScreenSize 800 600 80 24) (mkPlace 2 4 6 3) ∅
    45 30 "right" =
    ([Write (ESC :: B "[4;4H")], Ok (<["X" := VInt 5]> ∅)) /\
  extra_cells (mkPlace 2 4 6 3) 5 "right" = -3.
Proof.
  destruct (set_cursor_for_place_narrow (mkScreenSize 800 600 80 24)
              (mkPlace 2 4 6 3) ∅ 45 30 "right" 5) as [[off Hrun] _];
    [reflexivity | simpl; lia |].
  split; reflexivity.
Defined.

(** C8 as worded fails at left alignment: the place 2x4@6x3 is narrower than
    the 5 cells the image needs, yet extraCells is 0 and the cursor goes to
    column 7, the rectangle's own origin. *)
Lemma set_cursor_for_place_narrow_left :
  cells_needed (mkScreenSize 800 600 80 24) 45 = Ok 5 /\
  place_width (mkPlace 2 4 6 3) < 5 /\
  extra_cells (mkPlace 2 4 6 3) 5 "left" = 0 /\
  fst (set_cursor_for_place (mkScreenSize 800 600 80 24) (mkPlace 2 4 6 3) ∅
         45 30 "left") = [Write (ESC :: B "[4;7H")].
Proof. repeat split. Qed.

(** ** The target box *)

(** C2, as amended: without a place, [process] takes as target box the
    terminal's pixel width by ten times the image's own pixel height, and
    needs_scaling is true exactly when the image's pixel width exceeds the
    terminal's pixel width or the scale-up flag is set (an image of
    non-negative height never exceeds ten times its own height). *)
Theorem process_box_without_place ss m scale_up :
  0 <= m_height m ->
  exists box,
    available_box ss None m = Ok box /\
    box = (Finite (inject_Z (ss_width ss)),
           Finite (inject_Z (10 * m_height m))) /\
    needs_scaling m box scale_up = (ss_width ss <? m_width m) || scale_up.
Proof.
  intros Hh. eexists. split; [reflexivity|]. split; [reflexivity|].
  unfold needs_scaling. cbn [fst snd]. rewrite !gt_float_inject.
  replace (10 * m_height m <? m_height m) with false
    by (symmetry; apply Z.ltb_ge; lia).
  by rewrite orb_false_r.
Qed.

Lemma process_box_without_place_witness :
  exists box,
    available_box (mkScreenSize 800 600 80 24) None (mkImageMeta 100 7000 "rgb" "png")
      = Ok box /\
    box = (Finite (inject_Z 800), Finite (inject_Z 70000)) /\
    needs_scaling (mkImageMeta 100 7000 "rgb" "png") box false = false.
Proof.
  apply (process_box_without_place (mkScreenSize 800 600 80 24)
           (mkImageMeta 100 7000 "rgb" "png") false).
  simpl. lia.
Defined.

(** C2 as worded fails: on an 800x600 terminal an image of 100x7000 pixels is
    taller than ten screen heights, so the specification's box asks for
    scaling, but the code's box is 800 by 70000 and it does not scale. *)
Lemma process_box_not_ten_screens :
  available_box (mkScreenSize 800 600 80 24) None (mkImageMeta 100 7000 "rgb" "png")
    = Ok (Finite (inject_Z 800), Finite (inject_Z 70000)) /\
  needs_scaling (mkImageMeta 100 7000 "rgb" "png")
    (Finite (inject_Z 800), Finite (inject_Z 70000)) false = false /\
  spec_available_box (mkScreenSize 800 600 80 24) = (800, 6000) /\
  spec_needs_scaling (mkScreenSize 800 600 80 24)
    (mkImageMeta 100 7000 "rgb" "png") false = true.
Proof. repeat split. Qed.

(** Under a place the box is made of floats: on a terminal 656 pixels and
    80 columns wide a place of 15 cells is a little less than 123 pixels
    wide, so a PNG of 123 pixels is converted. *)
Example available_box_place :
  match available_box (mkScreenSize 656 480 80 24) (Some (mkPlace 15 4 0 0))
          (mkImageMeta 123 10 "rgb" "png") with
  | Ok box =>
      needs_scaling (mkImageMeta 123 10 "rgb" "png") box false
      && negb (gt_float 122 box.1) && negb (gt_float 80 box.2)
      && gt_float 81 box.2
  | Raise _ => false
  end = true.
Proof. vm_compute. reflexivity. Qed.

Example process_place_converts :
  (fun r => (frames_of r.1, r.2))
    (process (mkScreenSize 656 480 80 24) stored_compress
       (fun _ => Ok (mkImageMeta 123 10 "rgb" "png"))
       (fun path m w h scale_up =>
          if gt_float 123 w then Ok ("converted.rgb", 122, 9)
          else Ok (path, 123, 10))
       sample_read_file sample_abspath true "a.png"
       (mkArgs "left" (Some (mkPlace 15 4 0 0)) false false "file" false 10
          false)
       (Some false))
  = ([(<["t" := VStr "t"]> (<["X" := VInt 0]> (show_command 24 122 9)),
       standard_b64encode (sample_abspath "converted.rgb"))],
     Ok tt).
Proof. vm_compute. reflexivity. Qed.

(** ** Parsing the place *)

Lemma split_nonempty sep s : split sep s <> [].
Proof.
  destruct s as [|c s]; simpl; [done|].
  case_decide; [done|]. by destruct (split sep s).
Qed.

Lemma split_one sep s b : split sep s = [b] -> s = b.
Proof.
  revert b. induction s as [|c s IH]; intros b; simpl.
  - by intros [= <-].
  - case_decide.
    + intros [= _ H']. by apply split_nonempty in H'.
    + destruct (split sep s) as [|h t] eqn:E; [by apply split_nonempty in E|].
      intros [= <- ->]. by rewrite (IH h).
Qed.

Lemma split_two sep s a b :
  split sep s = [a; b] -> s = a +:+ String sep b.
Proof.
  revert a. induction s as [|c s IH]; intros a; simpl; [done|].
  case_decide as Hc.
  - intros [= <- H']. apply split_one in H'. by subst.
  - destruct (split sep s) as [|h t] eqn:E; [by apply split_nonempty in E|].
    intros [= <- ->]. simpl. by rewrite (IH h).
Qed.

Lemma split1_two sep s a b :
  split1 sep s = [a; b] -> s = a +:+ String sep b.
Proof.
  revert a. induction s as [|c s IH]; intros a; simpl; [done|].
  case_decide as Hc.
  - intros [= <- <-]. by subst.
  - destruct (split1 sep s) as [|h t] eqn:E; [done|].
    intros [= <- ->]. simpl. by rewrite (IH h).
Qed.

Lemma append_app (a b c : string) : (a +:+ b) +:+ c = a +:+ (b +:+ c).
Proof.
  induction a as [|x a IH]; [done|].
  change (String x ((a +:+ b) +:+ c) = String x (a +:+ (b +:+ c))).
  by rewrite IH.
Qed.

Lemma unpack_ints_two ud mx parts a b :
  unpack_ints ud mx parts = Ok (a, b) ->
  exists sa sb,
    parts = [sa; sb] /\ py_int ud mx sa = Ok a /\ py_int ud mx sb = Ok b.
Proof.
  destruct parts as [|sa [|sb [|? ?]]]; simpl; try done.
  destruct (py_int ud mx sa) as [a'|] eqn:Ea; simpl; [|done].
  destruct (py_int ud mx sb) as [b'|] eqn:Eb; simpl; [|done].
  intros [= <- <-]. by exists sa, sb.
Qed.

Lemma parse_place_some ud mx s p :
  parse_place ud mx (Some s) = Ok (Some p) ->
  exists w h l t,
    s = w +:+ "x" +:+ h +:+ "@" +:+ l +:+ "x" +:+ t /\
    py_int ud mx w = Ok (place_width p) /\
    py_int ud mx h = Ok (place_height p) /\
    py_int ud mx l = Ok (place_left p) /\
    py_int ud mx t = Ok (place_top p).
Proof.
  unfold parse_place. destruct s as [|c s]; [done|].
  destruct (split1 "@" (String c s)) as [|area [|pos [|? ?]]] eqn:E1; try done.
  destruct (unpack_ints ud mx (split "x" area)) as [[w h]|] eqn:E2; simpl;
    [|done].
  destruct (unpack_ints ud mx (split "x" pos)) as [[l t]|] eqn:E3; simpl;
    [|done].
  intros [= <-]. simpl.
  apply unpack_ints_two in E2 as (sw & sh & E2 & Hw & Hh).
  apply unpack_ints_two in E3 as (sl & st & E3 & Hl & Ht).
  apply split_two in E2, E3. apply split1_two in E1.
  exists sw, sh, sl, st. repeat split; try done.
  rewrite E1, E2, E3. by rewrite append_app.
Qed.

Section MainProperties.

Variable screen_size : ScreenSize.
Variable zlib_compress : list byte -> list byte.
Variable identify : string -> result ImageMeta.
Variable convert :
  string -> ImageMeta -> float -> float -> bool -> result (string * Z * Z).
Variable read_file : string -> result (list byte).
Variable abspath_fsenc : string -> list byte.
Variable os_walk : string -> list (string * list string * list string).
Variable guess_type : string -> option string.
Variable path_join : string -> string -> string.
Variable unicode_decimal : N -> option N.
Variable int_max_str_digits : N.
Variable terminal_input : list (list byte).
Variable stdin_data : option (list byte).
Variable stdin_tempfile : string.
Variable isdir : string -> bool.
Variable clear_images_on_screen : list byte.
Variable format_float : Q -> string.
Variable probe_file_name : list byte.

Let main' :=
  main screen_size zlib_compress identify convert read_file abspath_fsenc
    os_walk guess_type path_join unicode_decimal int_max_str_digits
    terminal_input stdin_data stdin_tempfile
    isdir clear_images_on_screen format_float probe_file_name.
Let main_item' :=
  main_item screen_size zlib_compress identify convert read_file
    abspath_fsenc os_walk guess_type path_join stdin_tempfile isdir.
Let scan' := scan os_walk guess_type path_join.
Let py_int' := py_int unicode_decimal int_max_str_digits.
Let parse_place' := parse_place unicode_decimal int_max_str_digits.

(** C9, as amended: every Place produced by [parse_place] has four integer
    fields, each the [int()] of one part of a specification of the form
    W x H @ L x T; the fields may be negative, since [int()] accepts a
    sign.  A non-empty specification never yields "no place", and one that
    is rejected makes [main] exit with the message "Not a valid place
    specification" before anything is written, so before any transfer. *)
Theorem parse_place_validated :
  (forall raw p,
     parse_place' raw = Ok (Some p) ->
     exists s w h l t,
       raw = Some s /\
       s = w +:+ "x" +:+ h +:+ "@" +:+ l +:+ "x" +:+ t /\
       py_int' w = Ok (place_width p) /\ py_int' h = Ok (place_height p) /\
       py_int' l = Ok (place_left p) /\ py_int' t = Ok (place_top p)) /\
  (forall s, s <> "" -> parse_place' (Some s) <> Ok None) /\
  (forall s e args items,
     parse_place' (Some s) = Raise e ->
     args_print_window_size args = false ->
     ss_width screen_size <> 0 ->
     main' (Some s) args items =
       ([], Raise (SystemExit
               (ExitMsg ("Not a valid place specification: " +:+ s))))).
Proof.
  split; [|split].
  - intros [s|] p H; [|done].
    destruct (parse_place_some _ _ s p H) as (w & h & l & t & ?).
    by exists s, w, h, l, t.
  - intros s Hs. unfold parse_place', parse_place.
    destruct s as [|c s]; [done|].
    destruct (split1 "@" (String c s)) as [|area [|pos [|? ?]]]; try done.
    destruct (unpack_ints _ _ (split "x" area)) as [[w h]|]; simpl; [|done].
    by destruct (unpack_ints _ _ (split "x" pos)) as [[l t]|].
  - intros s e args items Hp Hw Hss. unfold main', main.
    rewrite Hw. destruct (decide (ss_width screen_size = 0)); [done|].
    unfold parse_place' in Hp. by rewrite Hp.
Qed.

(** C10: for a directory given as an item, the body of [main]'s loop calls
    [process] once per scanned file with the directory itself and without
    the third argument; the call raises [TypeError] before [process] does
    anything, and no handler of the loop takes it.  So nothing is written
    for the directory: no file found in it is transferred. *)
Theorem main_item_directory (has_files : bool) (args : Args) (d : string) :
  isdir d = true ->
  main_item' has_files args (PathItem d) =
    ([], match scan' d with
         | [] => Ok []
         | _ :: _ =>
             Raise (TypeError
               "process() missing 1 required positional argument: 'is_tempfile'")
         end) /\
  (forall path,
     process screen_size zlib_compress identify convert read_file
       abspath_fsenc has_files path args None =
     ([], Raise (TypeError
             "process() missing 1 required positional argument: 'is_tempfile'"))).
Proof.
  intros Hd. split; [|reflexivity].
  unfold main_item', main_item, scan'. simpl. rewrite Hd.
  by destruct (scan os_walk guess_type path_join d).
Qed.

End MainProperties.

Lemma parse_place_validated_witness :
  parse_place sample_unicode_decimal sample_max_str_digits (Some "8x4@2y3")
    = Raise ValueError /\
  main sample_screen stored_compress sample_identify sample_convert
    sample_read_file sample_abspath sample_walk sample_guess_type sample_join
    sample_unicode_decimal sample_max_str_digits
    [] None "stdin.png" sample_isdir [] sample_format_float []
    (Some "8x4@2y3") sample_args [PathItem "a.png"] =
    ([], Raise (SystemExit
            (ExitMsg "Not a valid place specification: 8x4@2y3"))).
Proof.
  split; [reflexivity|].
  apply (parse_place_validated sample_screen stored_compress sample_identify
           sample_convert sample_read_file sample_abspath sample_walk
           sample_guess_type sample_join sample_unicode_decimal
           sample_max_str_digits [] None "stdin.png" sample_isdir []
           sample_format_float []) with (e := ValueError);
    [reflexivity | reflexivity | simpl; lia].
Defined.

(** C9 as worded fails: a signed width is accepted and the Place has a
    negative field. *)
Lemma parse_place_negative_field :
  parse_place sample_unicode_decimal sample_max_str_digits (Some "-8x4@2x-3")
    = Ok (Some (mkPlace (-8) 4 2 (-3))) /\
  place_width (mkPlace (-8) 4 2 (-3)) < 0.
Proof. split; [reflexivity | simpl; lia]. Qed.

(** Blanks and decimal digits are those of Unicode; the ASCII separators
    are not blanks. *)
Example parse_place_blank_and_wide_digit :
  parse_place sample_unicode_decimal sample_max_str_digits
    (Some (NBSP +:+ FULLWIDTH_8 +:+ "x4@2x3")) = Ok (Some (mkPlace 8 4 2 3)) /\
  parse_place sample_unicode_decimal sample_max_str_digits
    (Some (FILE_SEPARATOR +:+ "8x4@2x3")) = Raise ValueError.
Proof. vm_compute. repeat split. Qed.

Lemma main_item_directory_witness :
  sample_isdir "pics" = true /\
  scan sample_walk sample_guess_type sample_join "pics"
    = [("pics/a.png", "image/png")] /\
  main_item sample_screen stored_compress sample_identify sample_convert
    sample_read_file sample_abspath sample_walk sample_guess_type sample_join
    "stdin.png" sample_isdir false sample_args (PathItem "pics") =
    ([], Raise (TypeError
            "process() missing 1 required positional argument: 'is_tempfile'")).
Proof.
  split; [reflexivity|]. split; [reflexivity|].
  apply (main_item_directory sample_screen stored_compress sample_identify
           sample_convert sample_read_file sample_abspath sample_walk
           sample_guess_type sample_join "stdin.png" sample_isdir false
           sample_args "pics").
  reflexivity.
Defined.

(** The same file given by name is transferred. *)
Example main_item_file :
  frames_of
    (fst (main_item sample_screen stored_compress sample_identify
            sample_convert sample_read_file sample_abspath sample_walk
            sample_guess_type sample_join "stdin.png" sample_isdir false
            sample_args (PathItem "pics/a.png")))
  = [(<["m" := VInt 0]> (<["S" := VInt 4]> (<["X" := VInt 0]>
       (<["a" := VStr "T"]> (<["f" := VInt 100]> (<["s" := VInt 100]>
         (<["v" := VInt 50]> ∅)))))), B "YWJjZA==")].
Proof. reflexivity. Qed.

(** ** base64 *)

Lemma b64_index_char (s : sextet) : b64_index (b64_char s) = Some s.
Proof.
  destruct s as [[[[[x5 x4] x3] x2] x1] x0].
  destruct x5, x4, x3, x2, x1, x0; vm_compute; reflexivity.
Qed.

Lemma b64_char_not_pad (s : sextet) : b64_char s <> b64_pad.
Proof.
  destruct s as [[[[[x5 x4] x3] x2] x1] x0].
  destruct x5, x4, x3, x2, x1, x0; vm_compute; discriminate.
Qed.

Lemma sextets1_inv (a : byte) :
  byte_of_sextets_1 (sextets1 a).1 (sextets1 a).2 = a.
Proof.
  unfold sextets1, byte_of_sextets_1.
  destruct (Byte.to_bits a) as (a0 & a1 & a2 & a3 & a4 & a5 & a6 & a7) eqn:E.
  cbv beta iota. simpl fst. simpl snd. cbv beta iota. rewrite <- E. apply Byte.of_bits_to_bits.
Qed.

Lemma sextets2_inv (a b : byte) :
  let '(s1, s2, s3) := sextets2 a b in
  byte_of_sextets_1 s1 s2 = a /\ byte_of_sextets_2 s2 s3 = b.
Proof.
  unfold sextets2, byte_of_sextets_1, byte_of_sextets_2.
  destruct (Byte.to_bits a) as (a0 & a1 & a2 & a3 & a4 & a5 & a6 & a7) eqn:Ea.
  destruct (Byte.to_bits b) as (b0 & b1 & b2 & b3 & b4 & b5 & b6 & b7) eqn:Eb.
  cbv beta iota. rewrite <- Ea, <- Eb. split; apply Byte.of_bits_to_bits.
Qed.

Lemma sextets3_inv (a b c : byte) :
  let '(s1, s2, s3, s4) := sextets3 a b c in
  byte_of_sextets_1 s1 s2 = a /\ byte_of_sextets_2 s2 s3 = b /\
  byte_of_sextets_3 s3 s4 = c.
Proof.
  unfold sextets3, byte_of_sextets_1, byte_of_sextets_2, byte_of_sextets_3.
  destruct (Byte.to_bits a) as (a0 & a1 & a2 & a3 & a4 & a5 & a6 & a7) eqn:Ea.
  destruct (Byte.to_bits b) as (b0 & b1 & b2 & b3 & b4 & b5 & b6 & b7) eqn:Eb.
  destruct (Byte.to_bits c) as (c0 & c1 & c2 & c3 & c4 & c5 & c6 & c7) eqn:Ec.
  cbv beta iota. rewrite <- Ea, <- Eb, <- Ec. repeat split; apply Byte.of_bits_to_bits.
Qed.

Lemma b64decode_pad2 c1 c2 :
  standard_b64decode [c1; c2; b64_pad; b64_pad] =
    (s1 ← b64_index c1; s2 ← b64_index c2; Some [byte_of_sextets_1 s1 s2]).
Proof. reflexivity. Qed.

Lemma b64decode_pad1 c1 c2 c3 :
  c3 <> b64_pad ->
  standard_b64decode [c1; c2; c3; b64_pad] =
    (s1 ← b64_index c1; s2 ← b64_index c2; s3 ← b64_index c3;
     Some [byte_of_sextets_1 s1 s2; byte_of_sextets_2 s2 s3]).
Proof.
  intros H. cbn [standard_b64decode].
  destruct (decide (b64_pad = b64_pad)); [|done].
  by destruct (decide (c3 = b64_pad)).
Qed.

Lemma b64decode_full c1 c2 c3 c4 rest :
  c4 <> b64_pad ->
  standard_b64decode (c1 :: c2 :: c3 :: c4 :: rest) =
    (s1 ← b64_index c1; s2 ← b64_index c2;
     s3 ← b64_index c3; s4 ← b64_index c4;
     tl ← standard_b64decode rest;
     Some (byte_of_sextets_1 s1 s2 :: byte_of_sextets_2 s2 s3
             :: byte_of_sextets_3 s3 s4 :: tl)).
Proof.
  intros H. cbn [standard_b64decode]. by destruct (decide (c4 = b64_pad)).
Qed.

(** Induction three bytes at a time, as the encoder recurses. *)
Lemma list_ind3 {A} (P : list A -> Prop) :
  P [] -> (forall a, P [a]) -> (forall a b, P [a; b]) ->
  (forall a b c rest, P rest -> P (a :: b :: c :: rest)) ->
  forall l, P l.
Proof.
  intros H0 H1 H2 H3.
  assert (H : forall l, P l /\ (forall a, P (a :: l)) /\
                        (forall a b, P (a :: b :: l))).
  { induction l as [|x l (IH0 & IH1 & IH2)]; [by auto|].
    split; [apply IH1|]. split; [intros a; apply IH2|].
    intros a b. by apply H3. }
  intros l. apply H.
Qed.

Lemma standard_b64_roundtrip (data : list byte) :
  standard_b64decode (standard_b64encode data) = Some data.
Proof.
  induction data as [|a|a b|a b c rest IH] using list_ind3.
  - reflexivity.
  - cbn [standard_b64encode].
    pose proof (sextets1_inv a) as H.
    destruct (sextets1 a) as [s1 s2]. simpl in H.
    rewrite b64decode_pad2, !b64_index_char. simpl. by rewrite H.
  - cbn [standard_b64encode].
    pose proof (sextets2_inv a b) as H.
    destruct (sextets2 a b) as [[s1 s2] s3]. destruct H as [Ha Hb].
    rewrite b64decode_pad1 by apply b64_char_not_pad.
    rewrite !b64_index_char. simpl. by rewrite Ha, Hb.
  - cbn [standard_b64encode].
    pose proof (sextets3_inv a b c) as H.
    destruct (sextets3 a b c) as [[[s1 s2] s3] s4]. destruct H as (Ha & Hb & Hc).
    rewrite b64decode_full by apply b64_char_not_pad.
    rewrite !b64_index_char, IH. simpl. by rewrite Ha, Hb, Hc.
Qed.

Lemma standard_b64encode_nil (data : list byte) :
  standard_b64encode data = [] -> data = [].
Proof.
  destruct data as [|a [|b [|c rest]]]; [done|..]; cbn [standard_b64encode].
  - by destruct (sextets1 a).
  - by destruct (sextets2 a b) as [[? ?] ?].
  - by destruct (sextets3 a b c) as [[[? ?] ?] ?].
Qed.

(** ** The chunk encoder *)

Lemma frames_of_cons_frame cmd payload out :
  frames_of (GrCmd cmd (Some payload) :: out) = (cmd, payload) :: frames_of out.
Proof. reflexivity. Qed.

(** What the loop of [write_chunked] emits for a non-empty text. *)
Lemma write_chunks_frames (n : nat) :
  forall (text : list byte) (cmd : gmap string value),
    (length text <= n)%nat -> text <> [] ->
    exists ev cmd' init last,
      write_chunks cmd text = (ev, Ok cmd') /\
      frames_of ev = init ++ [last] /\
      concat (snd <$> frames_of ev) = text /\
      Forall (fun fr => (length fr.2 <= 4096)%nat) (frames_of ev) /\
      more_flag last = Some (VInt 0) /\
      Forall (fun fr => more_flag fr = Some (VInt 1)) init /\
      (forall k, k <> "m" -> (default last (head init)).1 !! k = cmd !! k).
Proof.
  induction n as [|n IH]; intros text cmd Hlen Hne.
  { destruct text; [done | simpl in Hlen; lia]. }
  destruct text as [|b bs]; [done|].
  rewrite write_chunks_equation_2. cbv zeta.
  set (text := b :: bs) in *.
  assert (Htd : take chunk_size text ++ drop chunk_size text = text)
    by apply take_drop.
  assert (Hchunk : (length (take chunk_size text) <= 4096)%nat)
    by (rewrite length_take; unfold chunk_size; lia).
  assert (Hrest : (length (drop chunk_size text) <= n)%nat).
  { pose proof (drop_chunk_shorter b bs) as Hs. fold text in Hs.
    change (length text) with (S (length bs)) in Hlen. lia. }
  generalize dependent (take chunk_size text). intros chunk Htd Hchunk.
  generalize dependent (drop chunk_size text). intros rest Hrest Htd.
  clearbody text. clear Hne Hlen b bs.
  unfold write_gr_cmd, emit, bind.
  destruct (decide (rest = [])) as [Hd|Hd].
  - rewrite Hd, write_chunks_equation_1. unfold ret.
    exists [GrCmd (<["m" := VInt 0]> cmd) (Some chunk)], ∅, [],
      (<["m" := VInt 0]> cmd, chunk).
    rewrite Hd, app_nil_r in Htd. subst chunk.
    split; [reflexivity|]. split; [reflexivity|].
    split; [apply app_nil_r|].
    split. { apply Forall_cons. split; [exact Hchunk | apply Forall_nil_2]. }
    split; [apply lookup_insert_eq|].
    split; [apply Forall_nil_2|].
    intros k Hk. apply lookup_insert_ne. congruence.
  - destruct (IH rest ∅ Hrest Hd) as
      (ev & cmd' & init & last & Hrun & Hfr & Hcat & Hlens & Hlast & Hinit & _).
    rewrite Hrun.
    exists (GrCmd (<["m" := VInt 1]> cmd) (Some chunk) :: ev), cmd',
      ((<["m" := VInt 1]> cmd, chunk) :: init), last.
    split; [reflexivity|]. rewrite frames_of_cons_frame.
    split; [by rewrite Hfr|].
    split. { rewrite fmap_cons, concat_cons. cbn [snd]. by rewrite Hcat. }
    split. { apply Forall_cons. split; [exact Hchunk | exact Hlens]. }
    split; [exact Hlast|].
    split. { apply Forall_cons. split; [apply lookup_insert_eq | exact Hinit]. }
    intros k Hk. apply lookup_insert_ne. congruence.
Qed.

Lemma write_chunked_unfold zc cmd data f :
  cmd !! "f" = Some f ->
  write_chunked zc cmd data =
    write_chunks
      (if decide (f <> VInt 100) then <["o" := VStr "z"]> cmd else cmd)
      (standard_b64encode
         (if decide (f <> VInt 100) then zc data else data)).
Proof.
  intros Hf. unfold write_chunked, getitem, lift, bind. rewrite Hf.
  destruct (decide (f <> VInt 100));
    by destruct (write_chunks _ _) as [ev r].
Qed.

(** C5, as amended: whenever the text to send is not empty (any buffer when
    the data is compressed, any non-empty buffer for format 100),
    [write_chunked] emits frames of which exactly one carries m=0; that frame
    is the last, every earlier frame carries m=1, and no payload is longer
    than 4096 bytes.  An empty buffer in format 100 gives an empty text, for
    which no frame is emitted at all. *)
Theorem write_chunked_more_flag zc cmd data f :
  cmd !! "f" = Some f ->
  let raw := if decide (f <> VInt 100) then zc data else data in
  let frames := frames_of (fst (write_chunked zc cmd data)) in
  (raw <> [] ->
   exists init last,
     frames = init ++ [last] /\
     more_flag last = Some (VInt 0) /\
     Forall (fun fr => more_flag fr = Some (VInt 1)) init /\
     length (filter (fun fr => more_flag fr = Some (VInt 0)) frames) = 1%nat /\
     Forall (fun fr => (length fr.2 <= 4096)%nat) frames) /\
  (raw = [] -> fst (write_chunked zc cmd data) = []).
Proof.
  intros Hf raw frames. subst frames.
  rewrite (write_chunked_unfold zc cmd data f Hf). fold raw. split.
  - intros Hraw.
    assert (Htext : standard_b64encode raw <> []).
    { intros H. by apply standard_b64encode_nil in H. }
    destruct (write_chunks_frames _ _
                (if decide (f <> VInt 100) then <["o" := VStr "z"]> cmd else cmd)
                (le_n _) Htext)
      as (ev & cmd' & init & last & -> & Hfr & _ & Hlens & Hlast & Hinit & _).
    exists init, last. simpl fst. rewrite <- Hfr at 1.
    repeat split; try done.
    rewrite Hfr, filter_app, length_app.
    rewrite filter_cons_True, filter_nil by done. simpl.
    replace (filter _ init) with (@nil (gmap string value * list byte));
      [done|].
    symmetry. clear -Hinit. induction Hinit as [|fr init H1 _ IH]; [done|].
    rewrite filter_cons_False; [done|]. rewrite H1. by intros [=].
  - intros ->. by rewrite write_chunks_equation_1.
Qed.

Lemma write_chunked_more_flag_witness :
  exists init last,
    frames_of (fst (write_chunked stored_compress (<["f" := VInt 24]> ∅) (B "abcd")))
      = init ++ [last] /\
    more_flag last = Some (VInt 0).
Proof.
  pose proof (write_chunked_more_flag stored_compress (<["f" := VInt 24]> ∅)
                (B "abcd") (VInt 24)) as H.
  cbv zeta in H. destruct H as [H _]; [reflexivity|].
  destruct H as (init & last & H1 & H2 & _); [discriminate|].
  by exists init, last.
Defined.

(** C5 as worded fails for the empty buffer in format 100: the loop body
    never runs, so no frame carries m=0. *)
Lemma write_chunked_empty_png :
  write_chunked stored_compress (<["f" := VInt 100]> ∅) [] =
    ([], Ok (<["f" := VInt 100]> ∅)) /\
  length (filter (fun fr => more_flag fr = Some (VInt 0))
            (frames_of (fst (write_chunked stored_compress
                               (<["f" := VInt 100]> ∅) [])))) = 0%nat.
Proof. split; reflexivity. Qed.

(** C4: for every buffer, decoding the concatenation of the payloads of the
    frames [write_chunked] emits, in the order it emits them, and
    decompressing the result when the first frame carries the compression
    flag, gives the buffer back.  Buffers of length 0, 1, 4095, 4096 and
    1,000,000 are instances.  [zlib_decompress] inverts [zlib_compress],
    whose output is never empty, and the command comes in without an [o]
    key, as [show] builds it. *)
Theorem write_chunked_roundtrip
    (zlib_compress : list byte -> list byte)
    (zlib_decompress : list byte -> option (list byte))
    (cmd : gmap string value) (data : list byte) :
  (forall d, zlib_decompress (zlib_compress d) = Some d) ->
  (forall d, zlib_compress d <> []) ->
  is_Some (cmd !! "f") ->
  cmd !! "o" = None ->
  (exists cmd', snd (write_chunked zlib_compress cmd data) = Ok cmd') /\
  receive zlib_decompress
    (frames_of (fst (write_chunked zlib_compress cmd data))) = Some data.
Proof.
  intros Hinv Hne [f Hf] Ho.
  rewrite (write_chunked_unfold zlib_compress cmd data f Hf).
  set (raw := if decide (f <> VInt 100) then zlib_compress data else data).
  set (cmd1 := if decide (f <> VInt 100) then <["o" := VStr "z"]> cmd else cmd).
  destruct (decide (raw = [])) as [Hraw|Hraw].
  - rewrite Hraw. cbn [standard_b64encode]. rewrite write_chunks_equation_1.
    split; [by eexists|]. subst raw.
    destruct (decide (f <> VInt 100)); [by apply Hne in Hraw|].
    by rewrite Hraw.
  - assert (Htext : standard_b64encode raw <> []).
    { intros H. by apply standard_b64encode_nil in H. }
    destruct (write_chunks_frames _ _ cmd1 (le_n _) Htext)
      as (ev & cmd' & init & last & -> & Hfr & Hcat & _ & _ & _ & Hkeys).
    split; [by eexists|]. simpl fst. unfold receive.
    rewrite Hcat, standard_b64_roundtrip. simpl. rewrite Hfr.
    specialize (Hkeys "o" ltac:(done)).
    assert (Hhead : exists fr frs, init ++ [last] = fr :: frs /\
                                   fr = default last (head init)).
    { destruct init as [|fr init]; simpl; eauto. }
    destruct Hhead as (fr & frs & -> & Hfr1). rewrite <- Hfr1 in Hkeys.
    destruct fr as [c p]. simpl in Hkeys. rewrite Hkeys.
    subst raw cmd1. destruct (decide (f <> VInt 100)).
    + rewrite lookup_insert_eq. destruct (decide _); [|done]. apply Hinv.
    + rewrite Ho. by destruct (decide _).
Qed.

Lemma stored_roundtrip d : stored_decompress (stored_compress d) = Some d.
Proof. reflexivity. Qed.

Lemma write_chunked_roundtrip_witness :
  receive stored_decompress
    (frames_of (fst (write_chunked stored_compress (<["f" := VInt 24]> ∅)
                       (B "abcd")))) = Some (B "abcd").
Proof.
  apply (write_chunked_roundtrip stored_compress stored_decompress
           (<["f" := VInt 24]> ∅) (B "abcd")).
  - apply stored_roundtrip.
  - intros d. discriminate.
  - by exists (VInt 24).
  - reflexivity.
Defined.

(** A text of 4100 bytes goes out as two frames, the first one full. *)
Example write_chunked_two_frames :
  let data := replicate 3073 Byte.x00 in
  (fun fr => (more_flag fr, length fr.2)) <$>
    frames_of (fst (write_chunked stored_compress (<["f" := VInt 100]> ∅) data))
  = [(Some (VInt 1), 4096%nat); (Some (VInt 0), 4%nat)].
Proof. vm_compute. reflexivity. Qed.

(** ** The response scanner *)

Lemma finditer_cons (c : byte) (rest : list byte) :
  finditer (c :: rest) =
    match match_here (c :: rest) with
    | Some (iid, payload, rest') => (iid, payload) :: finditer rest'
    | None => finditer rest
    end.
Proof.
  rewrite finditer_equation_2. unfold inspect.
  assert (H : forall x (e : match_here (c :: rest) = x),
             finditer_unfold_clause_2 c rest (exist _ x e) =
             match x with
             | Some (iid, payload, rest') => (iid, payload) :: finditer rest'
             | None => finditer rest
             end).
  { intros [[[iid p] r]|] e; reflexivity. }
  apply H.
Qed.

Lemma strip_prefix_Some p buf r :
  strip_prefix p buf = Some r <-> buf = p ++ r.
Proof.
  unfold strip_prefix. split.
  - case_decide as H; [|done]. intros [= <-].
    transitivity (take (length p) buf ++ drop (length p) buf);
      [symmetry; apply take_drop | by rewrite H].
  - intros ->. rewrite take_app_length, drop_app_length.
    by rewrite decide_True.
Qed.

Lemma strip_prefix_app p buf r ext :
  strip_prefix p buf = Some r -> strip_prefix p (buf ++ ext) = Some (r ++ ext).
Proof.
  rewrite !strip_prefix_Some. intros ->. by rewrite app_assoc.
Qed.

Lemma strip_prefix_None_app p buf ext :
  strip_prefix p buf = None -> (length p <= length buf)%nat ->
  strip_prefix p (buf ++ ext) = None.
Proof.
  unfold strip_prefix. intros H Hlen.
  rewrite take_app_le by done. by case_decide.
Qed.

Lemma match_here_hdr iid body :
  iid ∈ B "1|2" ->
  match_here (response_prefix ++ iid :: ";"%byte :: body) =
    match lazy_payload body with
    | Some (p, r) => Some (iid, p, r)
    | None => None
    end.
Proof.
  intros Hi. unfold match_here.
  rewrite (proj2 (strip_prefix_Some _ _ (iid :: ";"%byte :: body)) eq_refl).
  by rewrite decide_True.
Qed.

Lemma match_here_inv buf iid p r :
  match_here buf = Some (iid, p, r) ->
  exists body,
    buf = response_prefix ++ iid :: ";"%byte :: body /\
    iid ∈ B "1|2" /\ lazy_payload body = Some (p, r).
Proof.
  unfold match_here.
  destruct (strip_prefix _ buf) as [[|i [|s body]]|] eqn:E; try done.
  apply strip_prefix_Some in E.
  case_decide as H; [|done]. destruct H as [Hi ->].
  destruct (lazy_payload body) as [[p' r']|] eqn:L; [|done].
  intros [= -> -> ->]. by exists body.
Qed.

Lemma match_here_ESC c rest : c <> ESC -> match_here (c :: rest) = None.
Proof.
  intros Hc. destruct (match_here (c :: rest)) as [[[i p] r]|] eqn:E; [|done].
  apply match_here_inv in E as (body & E & _). by injection E.
Qed.

Lemma lazy_payload_length buf p r :
  lazy_payload buf = Some (p, r) -> buf = p ++ [ESC; BACKSLASH] ++ r /\ p <> [].
Proof.
  revert p r. induction buf as [|c buf IH]; intros p r; simpl; [done|].
  case_decide; [done|].
  destruct (strip_prefix _ buf) as [r'|] eqn:E.
  - intros [= <- <-]. apply strip_prefix_Some in E. by subst.
  - destruct (lazy_payload buf) as [[p' r']|]; [|done].
    intros [= <- <-]. destruct (IH _ _ eq_refl) as [-> _]. done.
Qed.

(** A match found in a buffer is found again, unchanged, when more input
    has arrived. *)
Lemma lazy_payload_app buf ext p r :
  lazy_payload buf = Some (p, r) ->
  lazy_payload (buf ++ ext) = Some (p, r ++ ext).
Proof.
  revert p r. induction buf as [|c buf IH]; intros p r; [done|].
  cbn [lazy_payload app]. case_decide; [done|].
  destruct (strip_prefix _ buf) as [r'|] eqn:E.
  - intros [= <- <-]. by rewrite (strip_prefix_app _ _ _ _ E).
  - destruct (lazy_payload buf) as [[p' r']|] eqn:L; [|done].
    intros [= <- <-].
    apply lazy_payload_length in L as L'. destruct L' as [Hb Hp].
    rewrite strip_prefix_None_app, (IH _ _ eq_refl); [done|done|].
    rewrite Hb, !length_app. destruct p'; [done|]. simpl. lia.
Qed.

Lemma match_here_app buf ext iid p r :
  match_here buf = Some (iid, p, r) ->
  match_here (buf ++ ext) = Some (iid, p, r ++ ext).
Proof.
  intros H. apply match_here_inv in H as (body & -> & Hi & L).
  rewrite <- app_assoc, <- !app_comm_cons.
  rewrite (match_here_hdr iid (body ++ ext) Hi).
  by rewrite (lazy_payload_app _ _ _ _ L).
Qed.

Lemma lazy_payload_prepend (u t : list byte) :
  NEWLINE ∉ u -> is_Some (lazy_payload t) -> is_Some (lazy_payload (u ++ t)).
Proof.
  intros Hu Ht. induction u as [|c u IH]; [done|].
  apply not_elem_of_cons in Hu as [Hc Hu]. specialize (IH Hu).
  cbn [lazy_payload app]. rewrite decide_False by congruence.
  destruct (strip_prefix _ (u ++ t)); [done|].
  destruct IH as [[p r] ->]. done.
Qed.

Lemma lazy_payload_no_newline (body ext : list byte) :
  lazy_payload body = None -> is_Some (lazy_payload (body ++ ext)) ->
  NEWLINE ∉ body.
Proof.
  induction body as [|c body IH]; [intros; apply not_elem_of_nil|].
  cbn [lazy_payload app]. case_decide as Hc; [by intros _ [? ?]|].
  intros Hnone Hsome. apply not_elem_of_cons. split; [congruence|].
  destruct (strip_prefix [ESC; BACKSLASH] body) as [r|] eqn:E; [done|].
  destruct (lazy_payload body) as [[p r]|] eqn:L; [done|].
  destruct (strip_prefix [ESC; BACKSLASH] (body ++ ext)) as [r|] eqn:E'.
  - (* the terminator straddles the end of the buffer *)
    apply strip_prefix_Some in E'.
    destruct body as [|x [|y body]]; [apply not_elem_of_nil| |].
    + injection E' as -> _. apply not_elem_of_cons. split; [done|].
      apply not_elem_of_nil.
    + injection E' as -> -> _. by rewrite (proj2 (strip_prefix_Some _ _ body)) in E.
  - apply IH; [done|]. by destruct (lazy_payload (body ++ ext)) as [[? ?]|].
Qed.

(** Inside a run without newline and without a reachable terminator no
    response frame can end, so none matches. *)
Lemma no_match_inside (body : list byte) :
  NEWLINE ∉ body -> lazy_payload body = None ->
  forall u t, body = u ++ t -> match_here t = None.
Proof.
  intros Hnl Hnone u t ->.
  destruct (match_here t) as [[[i p] r]|] eqn:E; [|done].
  apply match_here_inv in E as (t' & -> & _ & L).
  assert (Hsome : is_Some (lazy_payload
                             ((u ++ response_prefix ++ [i; ";"%byte]) ++ t'))).
  { apply lazy_payload_prepend; [|by eexists].
    intros Hin. apply Hnl. rewrite !elem_of_app in Hin |- *.
    destruct Hin as [?|[?|Hin]]; [by left | by right; left |].
    right. right. revert Hin. rewrite !elem_of_cons, elem_of_nil. tauto. }
  revert Hsome. rewrite <- !app_assoc. cbn [app]. rewrite Hnone.
  by intros [? ?].
Qed.

Lemma finditer_nil (s : list byte) :
  (forall u t, s = u ++ t -> match_here t = None) -> finditer s = [].
Proof.
  induction s as [|c s IH]; intros H; [apply finditer_equation_1|].
  rewrite finditer_cons, (H [] (c :: s) eq_refl).
  apply IH. intros u t ->. by apply (H (c :: u) t).
Qed.

Lemma finditer_skip (c : byte) (s : list byte) :
  c <> ESC -> finditer (c :: s) = finditer s.
Proof. intros Hc. by rewrite finditer_cons, match_here_ESC. Qed.

Lemma match_here_short (t : list byte) :
  (length t < 7)%nat -> match_here t = None.
Proof.
  intros Hlen. destruct (match_here t) as [[[i p] r]|] eqn:E; [|done].
  apply match_here_inv in E as (body & -> & _). simpl in Hlen. lia.
Qed.

(** Where the scan finds nothing in the buffer but finds a match once more
    input has arrived, the rest of the buffer holds no match either. *)
Lemma no_later_match (c : byte) (rest ext : list byte) :
  match_here (c :: rest) = None ->
  is_Some (match_here ((c :: rest) ++ ext)) ->
  finditer rest = [].
Proof.
  intros Hnone [[[i p] r] Hsome].
  apply match_here_inv in Hsome as (body' & Heq & Hi & L).
  assert (Hi' : i <> ESC).
  { intros ->. revert Hi.
    change (B "1|2") with ["1"%byte; "|"%byte; "2"%byte].
    rewrite !elem_of_cons, elem_of_nil. intros [?|[?|[?|[]]]]; discriminate. }
  change (response_prefix ++ i :: ";"%byte :: body')
    with ((response_prefix ++ [i; ";"%byte]) ++ body') in Heq.
  apply app_eq_app in Heq as [body [[Hbuf Hb'] | [Hhdr Hext]]].
  - (* the whole header lies in the buffer *)
    rewrite Hbuf, <- app_assoc in Hnone. cbn [app] in Hnone.
    rewrite match_here_hdr in Hnone by done.
    assert (Hlp : lazy_payload body = None)
      by (by destruct (lazy_payload body) as [[? ?]|]).
    injection Hbuf as -> ->. cbn [app].
    rewrite !finditer_skip by done.
    apply finditer_nil, no_match_inside; [|done].
    apply (lazy_payload_no_newline body ext Hlp).
    rewrite <- Hb', L. by eexists.
  - (* the buffer ends inside the header *)
    apply finditer_nil. intros u t ->. apply match_here_short.
    apply (f_equal length) in Hhdr. rewrite !length_app in Hhdr.
    simpl in Hhdr. rewrite length_app in Hhdr. lia.
Qed.

(** The matches found in a buffer are the first matches found in any
    extension of it. *)
Lemma finditer_app_prefix (buf ext : list byte) :
  finditer buf `prefix_of` finditer (buf ++ ext).
Proof.
  remember (length buf) as n eqn:Hn.
  revert buf Hn. induction n as [n IH] using lt_wf_ind. intros buf Hn.
  destruct buf as [|c rest].
  { rewrite finditer_equation_1. apply prefix_nil. }
  rewrite finditer_cons.
  destruct (match_here (c :: rest)) as [[[i p] r]|] eqn:E.
  - apply match_here_shorter in E as Hlt.
    rewrite <- app_comm_cons, finditer_cons, app_comm_cons.
    rewrite (match_here_app _ ext _ _ _ E).
    apply prefix_cons. apply (IH (length r)); [lia | done].
  - rewrite <- app_comm_cons, finditer_cons, app_comm_cons.
    destruct (match_here ((c :: rest) ++ ext)) as [[[i p] r]|] eqn:E'.
    + rewrite (no_later_match c rest ext E); [apply prefix_nil|].
      rewrite E'. by eexists.
    + apply (IH (length rest)); [simpl in Hn; lia | done].
Qed.

(** ** The pattern as it is meant *)

Lemma line_length_le (buf : list byte) : (line_length buf <= length buf)%nat.
Proof.
  unfold line_length. destruct (list_find _ buf) as [[i x]|] eqn:E; [|done].
  apply list_find_Some in E as (Hi & _). apply lookup_lt_Some in Hi. lia.
Qed.

Lemma line_length_no_newline (buf : list byte) (k : nat) :
  (k <= line_length buf)%nat <->
  (k <= length buf)%nat /\ (NEWLINE ∉ take k buf).
Proof.
  unfold line_length. destruct (list_find _ buf) as [[i x]|] eqn:E.
  - apply list_find_Some in E as (Hi & -> & Hbefore). split.
    + intros Hk. split; [apply lookup_lt_Some in Hi; lia|].
      intros Hin. apply list_elem_of_lookup in Hin as [j Hj].
      apply lookup_take_Some in Hj as [Hj Hlt].
      apply (Hbefore j NEWLINE Hj); [lia | done].
    + intros [Hlen Hno]. destruct (decide (k <= i)%nat) as [|Hgt]; [done|].
      exfalso. apply Hno. apply list_elem_of_lookup. exists i.
      apply lookup_take_Some. split; [done | lia].
  - split; [|by intros [? _]]. intros Hk. split; [done|].
    intros Hin. apply elem_of_take in Hin.
    apply list_find_None in E. rewrite Forall_forall in E.
    destruct Hin as (i & Hi & _).
    exact (E NEWLINE (list_elem_of_lookup_2 _ _ _ Hi) eq_refl).
Qed.

(** What [design_payload] finds, said without the search. *)
Lemma design_payload_spec (buf p rest : list byte) :
  design_payload buf = Some (p, rest) <->
  buf = p ++ [ESC; BACKSLASH] ++ rest /\ p <> [] /\ (NEWLINE ∉ p) /\
  forall k, (0 < k < length p)%nat -> ~ terminated_at buf k.
Proof.
  unfold design_payload. split.
  - destruct (list_find _ _) as [[i k]|] eqn:E; [|done].
    intros [= <- <-]. apply list_find_Some in E as (Hi & Ht & Hbefore).
    apply lookup_seq in Hi as [-> Hi].
    assert (Hk : (1 + i <= line_length buf)%nat) by lia.
    apply line_length_no_newline in Hk as [Hlen Hno].
    unfold terminated_at in Ht.
    assert (Hd : drop (1 + i) buf = [ESC; BACKSLASH] ++ drop (1 + i + 2) buf).
    { rewrite <- Ht, <- (drop_drop buf 2 (1 + i)). by rewrite take_drop. }
    split; [|split; [|split]].
    + rewrite <- Hd. by rewrite take_drop.
    + intros E. apply (f_equal length) in E. rewrite length_take in E.
      cbn [length] in E. lia.
    + done.
    + intros k Hk. rewrite length_take in Hk.
      destruct k as [|k]; [lia|].
      apply (Hbefore k (S k)); [|lia].
      apply lookup_seq. split; [done | lia].
  - intros (-> & Hp & Hno & Hfirst).
    set (buf := p ++ [ESC; BACKSLASH] ++ rest) in *.
    assert (Hlen : (0 < length p)%nat) by (destruct p; [done | simpl; lia]).
    assert (Hk : (length p <= line_length buf)%nat).
    { apply line_length_no_newline. unfold buf. rewrite length_app.
      split; [lia|]. by rewrite take_app_length. }
    assert (E : list_find (terminated_at buf) (seq 1 (line_length buf)) =
                Some (length p - 1, length p)%nat).
    { apply list_find_Some. split; [|split].
      - apply lookup_seq. split; lia.
      - unfold terminated_at, buf. by rewrite drop_app_length.
      - intros j y Hj Hlt. apply lookup_seq in Hj as [-> _].
        apply Hfirst. lia. }
    rewrite E. unfold buf. rewrite take_app_length.
    rewrite <- drop_drop, drop_app_length. done.
Qed.

(** A match of the pattern as it is meant, said without the search: the
    frame header with id 1 or 2, a non-empty payload without newline, the
    terminator, and no terminator earlier behind the first payload byte. *)
Lemma design_match_here_spec (buf : list byte) iid p rest :
  design_match_here buf = Some (iid, p, rest) <->
  (iid = "1"%byte \/ iid = "2"%byte) /\
  buf = response_prefix ++ iid :: ";"%byte :: p ++ [ESC; BACKSLASH] ++ rest /\
  p <> [] /\ (NEWLINE ∉ p) /\
  forall k, (0 < k < length p)%nat ->
            ~ terminated_at (p ++ [ESC; BACKSLASH] ++ rest) k.
Proof.
  unfold design_match_here. split.
  - destruct (strip_prefix response_prefix buf) as [[|i [|s body]]|] eqn:E;
      try done.
    apply strip_prefix_Some in E.
    case_decide as H; [|done]. destruct H as [Hi ->].
    destruct (design_payload body) as [[p' r']|] eqn:L; [|done].
    intros [= -> -> ->].
    apply design_payload_spec in L as (-> & Hp & Hno & Hfirst).
    by repeat split.
  - intros (Hi & -> & Hp & Hno & Hfirst).
    rewrite (proj2 (strip_prefix_Some _ _
               (iid :: ";"%byte :: p ++ [ESC; BACKSLASH] ++ rest)) eq_refl).
    rewrite decide_True by done.
    by rewrite (proj2 (design_payload_spec _ p rest)).
Qed.

Lemma line_length_cons (c : byte) (rest : list byte) :
  line_length (c :: rest) =
    if decide (c = NEWLINE) then 0%nat else S (line_length rest).
Proof.
  unfold line_length. cbn [list_find]. case_decide; [done|].
  by destruct (list_find _ rest) as [[i x]|].
Qed.

Lemma design_payload_cons (c : byte) (rest : list byte) :
  design_payload (c :: rest) =
    if decide (c = NEWLINE) then None
    else if decide (terminated_at rest 0) then Some ([c], drop 2 rest)
    else
      match design_payload rest with
      | Some (p, rest') => Some (c :: p, rest')
      | None => None
      end.
Proof.
  unfold design_payload. rewrite line_length_cons.
  case_decide as Hc; [done|].
  cbn [seq list_find].
  destruct (decide (terminated_at (c :: rest) 1)) as [H1|H1];
    destruct (decide (terminated_at rest 0)) as [H0|H0]; try done.
  rewrite <- fmap_S_seq, list_find_fmap.
  rewrite (list_find_ext _ (terminated_at rest)) by done.
  by destruct (list_find (terminated_at rest) _) as [[i k]|].
Qed.

Lemma lazy_payload_design (buf : list byte) :
  lazy_payload buf = design_payload buf.
Proof.
  induction buf as [|c rest IH]; [done|].
  rewrite design_payload_cons. cbn [lazy_payload].
  case_decide; [done|].
  unfold strip_prefix. cbn [length].
  destruct (decide (take 2 rest = [ESC; BACKSLASH])) as [E|E].
  - by rewrite decide_True.
  - rewrite decide_False by done. by rewrite IH.
Qed.

Lemma match_here_design (buf : list byte) :
  strip_prefix (response_prefix ++ B "|;") buf = None ->
  match_here buf = design_match_here buf.
Proof.
  intros Hbar. unfold match_here, design_match_here.
  destruct (strip_prefix response_prefix buf) as [[|iid [|semi rest]]|] eqn:E;
    try done.
  rewrite lazy_payload_design.
  destruct (decide (iid ∈ B "1|2" ∧ semi = ";"%byte)) as [[Hi ->]|Hno].
  - change (B "1|2") with ["1"%byte; "|"%byte; "2"%byte] in Hi.
    rewrite !elem_of_cons, elem_of_nil in Hi.
    destruct Hi as [->|[->|[->|[]]]].
    + by rewrite decide_True by auto.
    + apply strip_prefix_Some in E. subst buf.
      rewrite (proj2 (strip_prefix_Some _ _ rest)) in Hbar; [done|].
      by rewrite <- app_assoc.
    + by rewrite decide_True by auto.
  - rewrite decide_False; [done|]. intros [Hi ->]. apply Hno. split; [|done].
    change (B "1|2") with ["1"%byte; "|"%byte; "2"%byte].
    rewrite !elem_of_cons. destruct Hi as [->| ->]; auto.
Qed.

Lemma design_finditer_cons (c : byte) (rest : list byte) :
  design_finditer (c :: rest) =
    match design_match_here (c :: rest) with
    | Some (iid, payload, rest') => (iid, payload) :: design_finditer rest'
    | None => design_finditer rest
    end.
Proof.
  rewrite design_finditer_equation_2. unfold inspect.
  assert (H : forall x (e : design_match_here (c :: rest) = x),
             design_finditer_unfold_clause_2 c rest (exist _ x e) =
             match x with
             | Some (iid, payload, rest') =>
                 (iid, payload) :: design_finditer rest'
             | None => design_finditer rest
             end).
  { intros [[[iid p] r]|] e; reflexivity. }
  apply H.
Qed.

Lemma has_bar_header_suffix (a b : list byte) :
  has_bar_header (a ++ b) = false -> has_bar_header b = false.
Proof.
  induction a as [|c a IH]; [done|].
  cbn [app has_bar_header]. intros H.
  apply orb_false_elim in H as [_ H]. by apply IH.
Qed.

Lemma has_bar_header_here (buf : list byte) :
  has_bar_header buf = false ->
  strip_prefix (response_prefix ++ B "|;") buf = None.
Proof.
  destruct buf as [|c rest]; [done|].
  cbn [has_bar_header]. intros H. apply orb_false_elim in H as [H _].
  apply bool_decide_eq_false in H.
  by destruct (strip_prefix _ (c :: rest)) as [r|]; [destruct H|].
Qed.

(** Without the start of a frame with id "|", the code's pattern finds the
    matches of the pattern as it is meant. *)
Lemma finditer_design (buf : list byte) :
  has_bar_header buf = false -> finditer buf = design_finditer buf.
Proof.
  remember (length buf) as n eqn:Hn. revert buf Hn.
  induction n as [n IH] using lt_wf_ind. intros buf Hn Hbar.
  destruct buf as [|c rest].
  { by rewrite finditer_equation_1, design_finditer_equation_1. }
  rewrite finditer_cons, design_finditer_cons.
  rewrite <- (match_here_design _ (has_bar_header_here _ Hbar)).
  destruct (match_here (c :: rest)) as [[[iid p] r]|] eqn:E.
  - f_equal. apply match_here_shorter in E as Hlen.
    apply (IH (length r)); [lia | done |].
    apply match_here_inv in E as (body & Hb & _ & L).
    apply lazy_payload_length in L as [-> _].
    rewrite Hb in Hbar.
    apply (has_bar_header_suffix
             (response_prefix ++ iid :: ";"%byte :: p ++ [ESC; BACKSLASH])).
    rewrite <- Hbar. f_equal. rewrite <- !app_assoc. simpl.
    by rewrite <- !app_assoc.
  - apply (IH (length rest)); [simpl in Hn; lia | done |].
    by apply (has_bar_header_suffix [c]).
Qed.

(** ** Recording the responses *)

Lemma first_payload_cons iid m ms :
  first_payload iid (m :: ms) =
    if decide (m.1 = iid) then Some m.2 else first_payload iid ms.
Proof.
  unfold first_payload. rewrite filter_cons. by case_decide.
Qed.

Lemma first_payload_prefix iid l1 l2 p :
  l1 `prefix_of` l2 -> first_payload iid l1 = Some p ->
  first_payload iid l2 = Some p.
Proof.
  intros [k ->]. induction l1 as [|m l1 IH]; [done|].
  rewrite <- app_comm_cons, !first_payload_cons. by case_decide.
Qed.

(** One pass of [parse_responses] keeps what is recorded and adds, for an id
    not yet recorded, its first match. *)
Lemma foldl_record_response iid ms :
  iid ∈ ["1"%byte; "2"%byte] ->
  forall R,
    foldl record_response R ms !! int_of_digit iid =
      match R !! int_of_digit iid with
      | Some b => Some b
      | None => ok_of iid ms
      end.
Proof.
  intros Hi. induction ms as [|[i p] ms IH]; intros R.
  { simpl. by destruct (R !! _). }
  cbn [foldl]. rewrite IH. unfold ok_of. rewrite first_payload_cons.
  unfold record_response. cbn [fst snd].
  destruct (decide (i ∈ ["1"%byte; "2"%byte])) as [Hi'|Hi'].
  - destruct (decide (i = iid)) as [->|Hne].
    + destruct (R !! int_of_digit iid) eqn:E; [by rewrite E|].
      by rewrite lookup_insert_eq.
    + assert (Hd : int_of_digit i <> int_of_digit iid).
      { revert Hi Hi' Hne. rewrite !elem_of_cons, !elem_of_nil.
        intros [->|[->|[]]] [->|[->|[]]]; done. }
      destruct (R !! int_of_digit i); [done|]. by rewrite lookup_insert_ne.
  - rewrite decide_False; [done|]. intros ->. done.
Qed.

Lemma ok_of_prefix iid buf ext b :
  ok_of iid (finditer buf) = Some b ->
  ok_of iid (finditer (buf ++ ext)) = Some b.
Proof.
  unfold ok_of. destruct (first_payload iid (finditer buf)) as [p|] eqn:E;
    [|done].
  by rewrite (first_payload_prefix _ _ _ _ (finditer_app_prefix buf ext) E).
Qed.

Lemma more_needed_recorded buf R data :
  recorded buf R -> recorded (buf ++ data) (more_needed (buf, R) data).1.2.
Proof.
  intros HR iid Hi. unfold more_needed, parse_responses. cbn [fst snd].
  rewrite (foldl_record_response iid _ Hi), (HR iid Hi).
  destruct (ok_of iid (finditer buf)) as [b|] eqn:E; [|done].
  symmetry. by apply ok_of_prefix.
Qed.

(** However the input is cut into pieces, and whether the loop stops early
    or at the deadline, what is recorded is the first match per id in all
    the input that arrived. *)
Lemma recv_recorded chunks :
  forall buf R,
    recorded buf R ->
    forall iid, iid ∈ ["1"%byte; "2"%byte] ->
      (recv more_needed (buf, R) chunks).2 !! int_of_digit iid =
        ok_of iid (finditer (buf ++ concat chunks)).
Proof.
  induction chunks as [|data chunks IH]; intros buf R HR iid Hi.
  { simpl. rewrite app_nil_r. by apply HR. }
  cbn [recv concat].
  pose proof (more_needed_recorded buf R data HR) as HR'.
  destruct (more_needed (buf, R) data) as [[buf' R'] more] eqn:E.
  assert (buf' = buf ++ data) as -> by (by injection E).
  cbn [fst snd] in HR'. rewrite app_assoc. destruct more.
  - by apply IH.
  - cbn [snd].
    assert (Hboth : forall j, j ∈ ["1"%byte; "2"%byte] ->
                              is_Some (R' !! int_of_digit j)).
    { unfold more_needed in E. cbn [fst snd] in E.
      injection E as <- Hmore. apply orb_false_elim in Hmore as [H1 H2].
      apply bool_decide_eq_false in H1, H2.
      intros j. rewrite !elem_of_cons, elem_of_nil.
      intros [->|[->|[]]]; by apply not_eq_None_Some. }
    destruct (Hboth iid Hi) as [b Hb]. rewrite Hb. symmetry.
    apply ok_of_prefix. by rewrite <- HR'.
Qed.

Lemma default_ok_of iid ms :
  default false (ok_of iid ms) = first_response_ok iid ms.
Proof.
  unfold ok_of, first_response_ok.
  destruct (first_payload iid ms) as [p|]; simpl; [|done].
  apply bool_decide_ext. split; [by intros -> | by intros [= ->]].
Qed.

Lemma detect_support_result format_float probe_file_name wait_for silent chunks :
  snd (detect_support format_float probe_file_name wait_for silent chunks) =
    Ok (first_response_ok "1" (finditer (concat chunks)),
        first_response_ok "2" (finditer (concat chunks))).
Proof.
  assert (H0 : recorded [] ∅).
  { intros iid _. rewrite finditer_equation_1. apply lookup_empty. }
  pose proof (recv_recorded chunks [] ∅ H0 "1"%byte) as H1.
  pose proof (recv_recorded chunks [] ∅ H0 "2"%byte) as H2.
  unfold detect_support.
  destruct (recv more_needed ([], ∅) chunks) as [received responses].
  cbn [snd app] in H1, H2.
  change (int_of_digit "1") with 1 in H1.
  change (int_of_digit "2") with 2 in H2.
  rewrite <- !default_ok_of, <- H1, <- H2 by (rewrite !elem_of_cons; auto).
  by destruct silent.
Qed.

(** C6, as amended: for every input that holds no frame header with the id
    character "|", however it arrives in pieces, [detect_support] records per
    probe id 1 and 2 only the first frame matching
    ESC _ G i = (1|2) ; (.+?) ESC \ among the non-overlapping matches of the
    accumulated buffer, scanned from the left (the payload is non-empty and
    holds no newline; later frames with the same id are ignored), and
    returns supportsProtocol = (the first id-1 payload is OK) and
    supportsFileTransfer = (the first id-2 payload is OK). *)
Theorem detect_support_first_response
    format_float probe_file_name wait_for silent chunks :
  has_bar_header (concat chunks) = false ->
  let matches := design_finditer (concat chunks) in
  parse_responses (concat chunks) ∅ !! 1 = ok_of "1" matches /\
  parse_responses (concat chunks) ∅ !! 2 = ok_of "2" matches /\
  snd (detect_support format_float probe_file_name wait_for silent chunks) =
    Ok (first_response_ok "1" matches, first_response_ok "2" matches).
Proof.
  intros Hbar. cbv zeta. rewrite <- (finditer_design _ Hbar).
  unfold parse_responses. split; [|split].
  - by rewrite (foldl_record_response "1" _ ltac:(rewrite !elem_of_cons; auto)).
  - by rewrite (foldl_record_response "2" _ ltac:(rewrite !elem_of_cons; auto)).
  - apply detect_support_result.
Qed.

Lemma detect_support_first_response_witness :
  design_finditer
    (concat [B "\" ++ [ESC] ++ B "_Gi=1;O"; B "K" ++ [ESC; BACKSLASH];
             frame "2" "EBADF:no such file"; frame "1" "ENOENT"])
  = [("1"%byte, B "OK"); ("2"%byte, B "EBADF:no such file");
     ("1"%byte, B "ENOENT")] /\
  snd (detect_support sample_format_float (B "/tmp/probe") (inject_Z 1) true
         [B "\" ++ [ESC] ++ B "_Gi=1;O"; B "K" ++ [ESC; BACKSLASH];
          frame "2" "EBADF:no such file"; frame "1" "ENOENT"])
  = Ok (true, false).
Proof.
  split; [reflexivity|].
  pose proof (detect_support_first_response sample_format_float
                (B "/tmp/probe") (inject_Z 1) true
                [B "\" ++ [ESC] ++ B "_Gi=1;O"; B "K" ++ [ESC; BACKSLASH];
                 frame "2" "EBADF:no such file"; frame "1" "ENOENT"]) as H.
  cbv zeta in H. destruct H as (_ & _ & H); [reflexivity|].
  exact H.
Defined.

Example detect_support_ok_and_error :
  snd (detect_support sample_format_float (B "/tmp/probe") (inject_Z 1) true
         [B "\" ++ [ESC] ++ B "_Gi=1;O"; B "K" ++ [ESC; BACKSLASH];
          frame "2" "EBADF:no such file"; frame "1" "ENOENT"])
  = Ok (true, false).
Proof. reflexivity. Qed.

(** C6 as worded fails: a frame with an empty payload is a match of the
    specification's pattern but not of the code's, which reads on to the
    next terminator, so the answer OK to probe 2 is swallowed. *)
Lemma detect_support_not_spec_pattern :
  has_bar_header (frame "1" "" ++ frame "2" "OK") = false /\
  snd (detect_support sample_format_float (B "/tmp/probe") (inject_Z 10) true
         [frame "1" "" ++ frame "2" "OK"]) = Ok (false, false) /\
  spec_detect (frame "1" "" ++ frame "2" "OK") = (false, true).
Proof. repeat split. Qed.

(** C7: when nothing that arrives before the deadline holds a response
    frame, and in particular when nothing arrives at all, [detect_support]
    returns normally, with both capabilities false. *)
Theorem detect_support_no_response
    format_float probe_file_name wait_for silent chunks :
  finditer (concat chunks) = [] ->
  exists out,
    detect_support format_float probe_file_name wait_for silent chunks =
      (out, Ok (false, false)).
Proof.
  intros Hnone.
  pose proof (detect_support_result format_float probe_file_name wait_for
                silent chunks) as H.
  rewrite Hnone in H.
  destruct (detect_support _ _ _ _ _) as [out r]. exists out.
  simpl in H. by rewrite H.
Qed.

Lemma detect_support_no_response_witness :
  (exists out,
     detect_support sample_format_float (B "/tmp/probe") (inject_Z 10) true []
       = (out, Ok (false, false))) /\
  (exists out,
     detect_support sample_format_float (B "/tmp/probe") (inject_Z 10) false
       [B "q"; B "uit" ++ [NEWLINE]] = (out, Ok (false, false))).
Proof.
  split.
  - apply (detect_support_no_response sample_format_float (B "/tmp/probe")
             (inject_Z 10) true []).
    reflexivity.
  - apply (detect_support_no_response sample_format_float (B "/tmp/probe")
             (inject_Z 10) false [B "q"; B "uit" ++ [NEWLINE]]).
    reflexivity.
Defined.

(** * Further properties *)

(** ** Cell arithmetic *)

Lemma int_of_float_div (a b : Z) :
  0 <= a -> 0 < b -> int_of_float (inject_Z a / inject_Z b) = a / b.
Proof.
  intros Ha Hb. unfold int_of_float.
  assert (H : Qle_bool 0 (inject_Z a / inject_Z b) = true).
  { apply Qle_bool_iff, Qle_shift_div_l.
    - unfold Qlt. simpl. lia.
    - rewrite Qmult_0_l. unfold Qle. simpl. lia. }
  rewrite H. symmetry. apply Zdiv_Qdiv.
Qed.

Lemma ceil_div (a b : Z) :
  ceil (inject_Z a / inject_Z b) = - ((- a) / b).
Proof.
  unfold ceil, Qceiling. f_equal. rewrite Zdiv_Qdiv. apply Qfloor_comp.
  rewrite inject_Z_opp. unfold Qdiv. ring.
Qed.

Lemma cell_width_div ss :
  0 <= ss_width ss -> 0 < ss_cols ss ->
  cell_width ss = Ok (ss_width ss / ss_cols ss).
Proof.
  intros Hw Hc. unfold cell_width, truediv.
  rewrite decide_False by lia. simpl. by rewrite int_of_float_div.
Qed.

(** X1: on a terminal at least one pixel per column wide, the cell width is
    the pixel width divided by the columns, rounded down, and the number of
    cells computed for an image is the least number of cells that covers its
    width. *)
Theorem cells_needed_covers ss width :
  0 < ss_cols ss -> ss_cols ss <= ss_width ss ->
  exists cw n,
    cell_width ss = Ok cw /\ cw = ss_width ss / ss_cols ss /\ 0 < cw /\
    cells_needed ss width = Ok n /\
    (n - 1) * cw < width <= n * cw.
Proof.
  intros Hc Hw. set (cw := ss_width ss / ss_cols ss).
  assert (Hcw : 0 < cw).
  { apply Z.div_str_pos. lia. }
  exists cw, (- ((- width) / cw)).
  assert (E : cell_width ss = Ok cw) by (apply cell_width_div; lia).
  split; [done|]. split; [done|]. split; [done|].
  split.
  - unfold cells_needed. rewrite E. simpl. unfold truediv.
    rewrite decide_False by lia. simpl. by rewrite ceil_div.
  - pose proof (Z.mul_div_le (- width) cw Hcw).
    pose proof (Z.mul_succ_div_gt (- width) cw Hcw). nia.
Qed.

Lemma cells_needed_covers_witness :
  exists cw n,
    cell_width sample_screen = Ok cw /\ cw = 800 / 80 /\ 0 < cw /\
    cells_needed sample_screen 45 = Ok n /\ (n - 1) * cw < 45 <= n * cw.
Proof.
  apply (cells_needed_covers sample_screen 45); simpl; lia.
Defined.

(** X2: for a positive cell width the in-cell offset is never negative and
    stays below the cell width, whatever the alignment string; and for right
    alignment the image, shifted by the offset, ends on a cell boundary. *)
Theorem calculate_in_cell_x_offset_bounds (W C : Z) (align : string) :
  0 < C ->
  exists off,
    calculate_in_cell_x_offset W C align = Ok off /\
    0 <= off < C /\
    (align = "right" -> (W + off) mod C = 0).
Proof.
  intros HC. rewrite calculate_in_cell_x_offset_ok by lia.
  pose proof (Z.mod_pos_bound W C HC) as Hm.
  eexists. split; [reflexivity|]. split.
  - repeat case_decide; try lia.
    split; [apply Z.div_pos; lia | apply Z.div_lt_upper_bound; lia].
  - intros ->. rewrite decide_False by done.
    case_decide as H0.
    + by rewrite Z.add_0_r.
    + rewrite decide_True by done.
      replace (W + (C - W mod C)) with (W - W mod C + 1 * C) by lia.
      rewrite Z.mod_add by lia.
      rewrite (Z.div_mod W C) at 1 by lia.
      replace (C * (W / C) + W mod C - W mod C) with ((W / C) * C) by lia.
      apply Z.mod_mul. lia.
Qed.

Lemma calculate_in_cell_x_offset_bounds_witness :
  exists off,
    calculate_in_cell_x_offset 45 10 "right" = Ok off /\
    0 <= off < 10 /\ ("right" = "right" -> (45 + off) mod 10 = 0).
Proof.
  apply (calculate_in_cell_x_offset_bounds 45 10 "right"). lia.
Defined.

(** X3: when the terminal reports no columns, or fewer pixels than columns
    (so that the cell width truncates to 0), both placement functions raise
    ZeroDivisionError before writing anything. *)
Theorem placement_zero_division ss place cmd width height align :
  ss_cols ss = 0 \/ 0 <= ss_width ss < ss_cols ss ->
  set_cursor ss cmd width height align = ([], Raise ZeroDivisionError) /\
  set_cursor_for_place ss place cmd width height align =
    ([], Raise ZeroDivisionError).
Proof.
  intros [H0 | [Hw Hlt]].
  - unfold set_cursor, set_cursor_for_place, truediv.
    rewrite decide_True by done. done.
  - unfold set_cursor, set_cursor_for_place.
    assert (E : truediv (ss_width ss) (ss_cols ss) =
                Ok (inject_Z (ss_width ss) / inject_Z (ss_cols ss))%Q).
    { unfold truediv. by rewrite decide_False by lia. }
    rewrite E. simpl. rewrite int_of_float_div by lia.
    rewrite Z.div_small by lia. done.
Qed.

Lemma placement_zero_division_witness :
  set_cursor (mkScreenSize 40 600 80 24) ∅ 45 30 "center"
    = ([], Raise ZeroDivisionError) /\
  set_cursor_for_place (mkScreenSize 40 600 80 24) (mkPlace 8 4 2 3) ∅ 45 30
    "center" = ([], Raise ZeroDivisionError).
Proof.
  apply (placement_zero_division (mkScreenSize 40 600 80 24)).
  right. simpl. lia.
Defined.

(** ** Default placement *)

(** X4: when the image needs no more cells than the terminal has columns,
    [set_cursor] stores under X the in-cell offset that
    [calculate_in_cell_x_offset] gives for the image's width, the cell width
    and the alignment, adds no c or r key, and writes nothing but k spaces,
    where k is the whole free width for right alignment, half of it, rounded
    down, for center alignment and 0 for any other alignment; the image
    never runs past the last column. *)
Theorem set_cursor_fits ss cmd width height align n :
  cells_needed ss width = Ok n ->
  n <= ss_cols ss ->
  exists cw off k,
    cell_width ss = Ok cw /\
    calculate_in_cell_x_offset width cw align = Ok off /\
    set_cursor ss cmd width height align =
      (if decide (k = 0) then []
       else [Write (replicate (Z.to_nat k) " "%byte)],
       Ok (<["X" := VInt off]> cmd)) /\
    0 <= k /\ k + n <= ss_cols ss /\
    (align <> "center" -> align <> "right" -> k = 0) /\
    (align = "right" -> k + n = ss_cols ss) /\
    (align = "center" -> 2 * k <= ss_cols ss - n <= 2 * k + 1).
Proof.
  unfold cells_needed, cell_width, set_cursor.
  destruct (truediv (ss_width ss) (ss_cols ss)) as [q|e] eqn:Hq; simpl; [|done].
  destruct (truediv width (int_of_float q)) as [q'|e] eqn:Hq'; simpl; [|done].
  intros [= <-] Hn.
  assert (Hcw : int_of_float q <> 0).
  { unfold truediv in Hq'. case_decide; [done|assumption]. }
  rewrite decide_False by lia.
  rewrite (calculate_in_cell_x_offset_ok _ _ align Hcw). simpl.
  set (k := if decide (align = "center") then (ss_cols ss - ceil q') / 2
            else if decide (align = "right") then ss_cols ss - ceil q' else 0).
  eexists _, _, k. split; [reflexivity|].
  split; [apply (calculate_in_cell_x_offset_ok _ _ align Hcw)|].
  split; [by destruct (decide (k = 0))|].
  pose proof (Z.mul_div_le (ss_cols ss - ceil q') 2 ltac:(lia)).
  pose proof (Z.mul_succ_div_gt (ss_cols ss - ceil q') 2 ltac:(lia)).
  subst k. repeat split; repeat case_decide; subst; try done; try lia.
Qed.

Lemma set_cursor_fits_witness :
  exists cw off k,
    cell_width sample_screen = Ok cw /\
    calculate_in_cell_x_offset 45 cw "center" = Ok off /\
    set_cursor sample_screen ∅ 45 30 "center" =
      (if decide (k = 0) then []
       else [Write (replicate (Z.to_nat k) " "%byte)],
       Ok (<["X" := VInt off]> ∅)) /\
    0 <= k /\ k + 5 <= 80 /\
    ("center" <> "center" -> "center" <> "right" -> k = 0) /\
    ("center" = "right" -> k + 5 = 80) /\
    ("center" = "center" -> 2 * k <= 80 - 5 <= 2 * k + 1).
Proof.
  apply (set_cursor_fits sample_screen ∅ 45 30 "center" 5);
    [reflexivity | simpl; lia].
Defined.

(** On the sample terminal a centered image of 45 pixels gets 37 spaces and
    the in-cell offset 2. *)
Example set_cursor_center_45 :
  set_cursor sample_screen ∅ 45 30 "center" =
    ([Write (replicate 37 " "%byte)], Ok (<["X" := VInt 2]> ∅)).
Proof. reflexivity. Qed.

(** X5: when the image needs more cells than the terminal has columns,
    [set_cursor] writes nothing and leaves X alone; it asks for all the
    columns under c and, under r, for the least number of rows that covers
    the image's height. *)
Theorem set_cursor_too_wide ss cmd width height align n :
  cells_needed ss width = Ok n ->
  ss_cols ss < n ->
  0 < ss_rows ss -> ss_rows ss <= ss_height ss ->
  exists cmd' r,
    set_cursor ss cmd width height align = ([], Ok cmd') /\
    cmd' !! "c" = Some (VInt (ss_cols ss)) /\
    cmd' !! "r" = Some (VInt r) /\
    cmd' !! "X" = cmd !! "X" /\
    (r - 1) * (ss_height ss / ss_rows ss) < height
      <= r * (ss_height ss / ss_rows ss).
Proof.
  unfold cells_needed, cell_width, set_cursor.
  destruct (truediv (ss_width ss) (ss_cols ss)) as [q|e] eqn:Hq; simpl; [|done].
  destruct (truediv width (int_of_float q)) as [q'|e] eqn:Hq'; simpl; [|done].
  intros [= <-] Hn Hr Hh.
  rewrite decide_True by lia.
  set (ch := ss_height ss / ss_rows ss).
  assert (Hch : 0 < ch) by (apply Z.div_str_pos; lia).
  unfold truediv at 1. rewrite decide_False by lia. simpl.
  rewrite int_of_float_div by lia. fold ch.
  unfold truediv. rewrite decide_False by lia. simpl. rewrite ceil_div.
  eexists _, _. split; [reflexivity|].
  split; [by rewrite lookup_insert_ne, lookup_insert_eq|].
  split; [by rewrite lookup_insert_eq|].
  split; [by rewrite !lookup_insert_ne|].
  pose proof (Z.mul_div_le (- height) ch Hch).
  pose proof (Z.mul_succ_div_gt (- height) ch Hch). nia.
Qed.

Lemma set_cursor_too_wide_witness :
  exists cmd' r,
    set_cursor sample_screen ∅ 1000 60 "center" = ([], Ok cmd') /\
    cmd' !! "c" = Some (VInt 80) /\
    cmd' !! "r" = Some (VInt r) /\
    cmd' !! "X" = (∅ : gmap string value) !! "X" /\
    (r - 1) * (600 / 24) < 60 <= r * (600 / 24).
Proof.
  apply (set_cursor_too_wide sample_screen ∅ 1000 60 "center" 100);
    [reflexivity | simpl; lia | simpl; lia | simpl; lia].
Defined.

(** ** More on the chunk encoder *)

(** The frames of the loop of [write_chunked], in full. *)
Lemma write_chunks_shape (n : nat) :
  forall (text : list byte) (cmd : gmap string value),
    (length text <= n)%nat -> text <> [] ->
    exists ev init last m later,
      write_chunks cmd text = (ev, Ok ∅) /\
      length ev = length (frames_of ev) /\
      frames_of ev = init ++ [last] /\
      frames_of ev = (<["m" := VInt m]> cmd, take chunk_size text) :: later /\
      Forall (fun fr => exists m', fr.1 = <["m" := VInt m']> ∅) later /\
      Forall (fun fr => length fr.2 = 4096%nat) init /\
      (0 < length last.2 <= 4096)%nat.
Proof.
  induction n as [|n IH]; intros text cmd Hlen Hne.
  { destruct text; [done | simpl in Hlen; lia]. }
  destruct text as [|b bs]; [done|].
  rewrite write_chunks_equation_2. cbv zeta.
  set (text := b :: bs) in *.
  assert (Htd : take chunk_size text ++ drop chunk_size text = text)
    by apply take_drop.
  assert (Hchunk : length (take chunk_size text)
                   = Nat.min 4096 (length text)) by apply length_take.
  assert (Hdrop : length (drop chunk_size text) = (length text - 4096)%nat)
    by apply length_drop.
  assert (Hpos : (0 < length text)%nat)
    by (change (length text) with (S (length bs)); lia).
  generalize dependent (take chunk_size text). intros chunk Htd Hchunk.
  generalize dependent (drop chunk_size text). intros rest Htd Hdrop.
  clearbody text. clear Hne b bs.
  unfold write_gr_cmd, emit, bind.
  destruct (decide (rest = [])) as [Hd|Hd].
  - rewrite Hd, write_chunks_equation_1. unfold ret.
    exists [GrCmd (<["m" := VInt 0]> cmd) (Some chunk)], [],
      (<["m" := VInt 0]> cmd, chunk), 0, [].
    rewrite Hd in Hdrop. simpl in Hdrop.
    repeat split; try done; try apply Forall_nil_2; simpl; lia.
  - assert (Hrest : (0 < length rest)%nat) by (destruct rest; [done|simpl; lia]).
    destruct (IH rest ∅ ltac:(lia) Hd) as
      (ev & init & last & m & later & Hrun & Hev & Hfr & Hhd & Hlater & Hinit
         & Hlast).
    rewrite Hrun.
    exists (GrCmd (<["m" := VInt 1]> cmd) (Some chunk) :: ev),
      ((<["m" := VInt 1]> cmd, chunk) :: init), last, 1, (frames_of ev).
    split; [reflexivity|]. rewrite frames_of_cons_frame.
    split; [simpl; by rewrite Hev|].
    split; [by rewrite Hfr|].
    split; [reflexivity|].
    split. { rewrite Hhd. apply Forall_cons. split; [by exists m | exact Hlater]. }
    split; [|exact Hlast].
    apply Forall_cons. split; [simpl; lia | exact Hinit].
Qed.

(** X6: a command without the format key makes [write_chunked] raise
    KeyError before any frame is written. *)
Theorem write_chunked_missing_format zc cmd data :
  cmd !! "f" = None ->
  write_chunked zc cmd data = ([], Raise (KeyError "f")).
Proof.
  intros Hf. unfold write_chunked, getitem. by rewrite Hf.
Qed.

Lemma write_chunked_missing_format_witness :
  write_chunked stored_compress (<["a" := VStr "T"]> ∅) (B "abcd")
    = ([], Raise (KeyError "f")).
Proof.
  apply (write_chunked_missing_format stored_compress (<["a" := VStr "T"]> ∅)).
  reflexivity.
Defined.

(** X7: the keys of the command travel on the first frame only.  The first
    frame carries every key of the command given to [write_chunked] (with o=z
    added when the data is compressed) besides m; every later frame carries m
    and nothing else; nothing but graphics frames is written; and the
    command is left empty. *)
Theorem write_chunked_keys_once zc cmd data f :
  cmd !! "f" = Some f ->
  (if decide (f <> VInt 100) then zc data else data) <> [] ->
  exists first later,
    frames_of (fst (write_chunked zc cmd data)) = first :: later /\
    length (fst (write_chunked zc cmd data)) = S (length later) /\
    (forall k, k <> "m" -> k <> "o" -> first.1 !! k = cmd !! k) /\
    first.1 !! "o" =
      (if decide (f <> VInt 100) then Some (VStr "z") else cmd !! "o") /\
    Forall (fun fr => exists m, fr.1 = <["m" := VInt m]> ∅) later /\
    snd (write_chunked zc cmd data) = Ok ∅.
Proof.
  intros Hf Hraw. rewrite (write_chunked_unfold zc cmd data f Hf).
  assert (Htext : standard_b64encode
                    (if decide (f <> VInt 100) then zc data else data) <> []).
  { intros H. by apply standard_b64encode_nil in H. }
  destruct (write_chunks_shape _ _
              (if decide (f <> VInt 100) then <["o" := VStr "z"]> cmd else cmd)
              (le_n _) Htext)
    as (ev & init & last & m & later & -> & Hev & _ & Hhd & Hlater & _).
  eexists _, later. simpl fst. simpl snd.
  split; [exact Hhd|]. split; [by rewrite Hev, Hhd|].
  split; [|split; [|done]]; cbn [fst].
  - intros k Hm Ho. rewrite lookup_insert_ne by done.
    case_decide; [by rewrite lookup_insert_ne|done].
  - rewrite lookup_insert_ne by done.
    case_decide; [by rewrite lookup_insert_eq|done].
Qed.

Lemma write_chunked_keys_once_witness :
  exists first later,
    frames_of (fst (write_chunked stored_compress
                      (<["f" := VInt 24]> (<["s" := VInt 7]> ∅))
                      (replicate 4000 Byte.x00))) = first :: later /\
    first.1 !! "s" = Some (VInt 7) /\
    first.1 !! "o" = Some (VStr "z") /\
    Forall (fun fr => exists m, fr.1 = <["m" := VInt m]> ∅) later.
Proof.
  destruct (write_chunked_keys_once stored_compress
              (<["f" := VInt 24]> (<["s" := VInt 7]> ∅))
              (replicate 4000 Byte.x00) (VInt 24))
    as (first & later & H1 & _ & H3 & H4 & H5 & _);
    [reflexivity | discriminate |].
  exists first, later. split; [exact H1|].
  split; [by rewrite H3|]. split; [exact H4 | exact H5].
Defined.

(** X8: every frame but the last carries exactly 4096 bytes of text, and the
    last one between 1 and 4096. *)
Theorem write_chunked_full_frames zc cmd data f :
  cmd !! "f" = Some f ->
  (if decide (f <> VInt 100) then zc data else data) <> [] ->
  exists init last,
    frames_of (fst (write_chunked zc cmd data)) = init ++ [last] /\
    Forall (fun fr => length fr.2 = 4096%nat) init /\
    (0 < length last.2 <= 4096)%nat.
Proof.
  intros Hf Hraw. rewrite (write_chunked_unfold zc cmd data f Hf).
  assert (Htext : standard_b64encode
                    (if decide (f <> VInt 100) then zc data else data) <> []).
  { intros H. by apply standard_b64encode_nil in H. }
  destruct (write_chunks_shape _ _
              (if decide (f <> VInt 100) then <["o" := VStr "z"]> cmd else cmd)
              (le_n _) Htext)
    as (ev & init & last & m & later & -> & _ & Hfr & _ & _ & Hinit & Hlast).
  by exists init, last.
Qed.

Lemma write_chunked_full_frames_witness :
  exists init last,
    frames_of (fst (write_chunked stored_compress (<["f" := VInt 100]> ∅)
                      (replicate 3073 Byte.x00))) = init ++ [last] /\
    Forall (fun fr => length fr.2 = 4096%nat) init /\
    (0 < length last.2 <= 4096)%nat.
Proof.
  apply (write_chunked_full_frames stored_compress (<["f" := VInt 100]> ∅)
           (replicate 3073 Byte.x00) (VInt 100)); [reflexivity | discriminate].
Defined.

(** ** Showing and processing one image *)

(** X9: placement touches the command only under X, c and r, and writes raw
    bytes only: it never emits a graphics frame, prints, or removes a
    file. *)
Theorem placement_keys ss (place : option Place) cmd width height align out cmd' :
  place_cursor ss place cmd width height align = (out, Ok cmd') ->
  Forall is_write out /\
  forall k, k <> "X" -> k <> "c" -> k <> "r" -> cmd' !! k = cmd !! k.
Proof.
  unfold place_cursor. destruct place as [p|].
  - unfold set_cursor_for_place.
    destruct (truediv (ss_width ss) (ss_cols ss)) as [q|e]; simpl; [|done].
    destruct (truediv width (int_of_float q)) as [q'|e]; simpl; [|done].
    destruct (calculate_in_cell_x_offset _ _ _) as [off|e]; simpl; [|done].
    intros [= <- <-]. split; [by repeat constructor|].
    intros k HX _ _. by rewrite lookup_insert_ne.
  - unfold set_cursor.
    destruct (truediv (ss_width ss) (ss_cols ss)) as [q|e]; simpl; [|done].
    destruct (truediv width (int_of_float q)) as [q'|e]; simpl; [|done].
    case_decide.
    + destruct (truediv (ss_height ss) (ss_rows ss)) as [qh|e]; simpl; [|done].
      destruct (truediv height (int_of_float qh)) as [qr|e]; simpl; [|done].
      intros [= <- <-]. split; [constructor|].
      intros k _ Hc Hr. by rewrite !lookup_insert_ne.
    + destruct (calculate_in_cell_x_offset _ _ _) as [off|e]; simpl; [|done].
      case_decide; intros [= <- <-].
      * split; [constructor|]. intros k HX _ _. by rewrite lookup_insert_ne.
      * split; [by repeat constructor|].
        intros k HX _ _. by rewrite lookup_insert_ne.
Qed.

Lemma placement_keys_witness :
  Forall is_write [Write (ESC :: B "[4;4H")] /\
  forall k, k <> "X" -> k <> "c" -> k <> "r" ->
    (<["X" := VInt 2]> (<["a" := VStr "T"]> ∅) : gmap string value) !! k
    = (<["a" := VStr "T"]> ∅ : gmap string value) !! k.
Proof.
  apply (placement_keys sample_screen (Some (mkPlace 8 4 2 3))
           (<["a" := VStr "T"]> ∅) 45 30 "center").
  reflexivity.
Defined.

Lemma frames_of_app out1 out2 :
  frames_of (out1 ++ out2) = frames_of out1 ++ frames_of out2.
Proof. apply omap_app. Qed.

Lemma frames_of_writes out : Forall is_write out -> frames_of out = [].
Proof.
  induction 1 as [|ev out Hev _ IH]; [done|].
  by destruct ev.
Qed.

Lemma frames_of_length_le out : (length (frames_of out) <= length out)%nat.
Proof.
  induction out as [|ev out IH]; [done|].
  destruct ev as [|c [p|]| | | |]; simpl; lia.
Qed.

Lemma frames_of_all out :
  length out = length (frames_of out) ->
  Forall (fun ev => exists c p, ev = GrCmd c (Some p)) out.
Proof.
  induction out as [|ev out IH]; [constructor|].
  pose proof (frames_of_length_le out).
  destruct ev as [|c [p|]| | | |]; simpl; try lia.
  intros [= H']. constructor; [by eauto | by apply IH].
Qed.

(** [write_chunked] writes graphics frames and nothing else. *)
Lemma write_chunked_only_frames zc cmd data :
  Forall (fun ev => exists c p, ev = GrCmd c (Some p))
    (fst (write_chunked zc cmd data)).
Proof.
  destruct (cmd !! "f") as [f|] eqn:Hf.
  - rewrite (write_chunked_unfold zc cmd data f Hf).
    set (text := standard_b64encode _).
    destruct (decide (text = [])) as [Ht|Ht].
    + rewrite Ht, write_chunks_equation_1. constructor.
    + destruct (write_chunks_shape _ text
                  (if decide (f <> VInt 100)
                   then <["o" := VStr "z"]> cmd else cmd) (le_n _) Ht)
        as (ev & init & last & m & later & -> & Hev & _).
      by apply frames_of_all.
  - rewrite write_chunked_missing_format by done. constructor.
Qed.

(** What the receiver makes of the frames of [write_chunked]. *)
Lemma write_chunked_received zc zd (cmd : gmap string value) data f :
  (forall d, zd (zc d) = Some d) -> (forall d, zc d <> []) ->
  cmd !! "f" = Some f -> cmd !! "o" = None ->
  receive zd (frames_of (fst (write_chunked zc cmd data))) = Some data.
Proof.
  intros Hinv Hne Hf Ho. rewrite (write_chunked_unfold zc cmd data f Hf).
  set (raw := if decide (f <> VInt 100) then zc data else data).
  destruct (decide (raw = [])) as [Hraw|Hraw].
  - rewrite Hraw. cbn [standard_b64encode]. rewrite write_chunks_equation_1.
    subst raw.
    destruct (decide (f <> VInt 100)); [by apply Hne in Hraw|].
    by rewrite Hraw.
  - assert (Htext : standard_b64encode raw <> []).
    { intros H. by apply standard_b64encode_nil in H. }
    destruct (write_chunks_shape _ _
                (if decide (f <> VInt 100) then <["o" := VStr "z"]> cmd
                 else cmd) (le_n _) Htext)
      as (ev & init & last & m & later & Hrun & _ & _ & Hhd & _).
    destruct (write_chunks_frames _ _
                (if decide (f <> VInt 100) then <["o" := VStr "z"]> cmd
                 else cmd) (le_n _) Htext)
      as (ev' & cmd' & init' & last' & Hrun' & _ & Hcat & _).
    rewrite Hrun in Hrun'. injection Hrun' as <- _.
    rewrite Hrun. simpl fst. unfold receive.
    rewrite Hcat, standard_b64_roundtrip, Hhd. simpl.
    rewrite lookup_insert_ne by done. subst raw.
    destruct (decide (f <> VInt 100)).
    + rewrite lookup_insert_eq. rewrite decide_True by done. apply Hinv.
    + rewrite Ho. by rewrite decide_False.
Qed.

Section ShowProperties.

Variable screen_size : ScreenSize.
Variable zlib_compress : list byte -> list byte.
Variable zlib_decompress : list byte -> option (list byte).
Variable read_file : string -> result (list byte).
Variable abspath_fsenc : string -> list byte.

Hypothesis zlib_inverse :
  forall d, zlib_decompress (zlib_compress d) = Some d.
Hypothesis zlib_nonempty : forall d, zlib_compress d <> [].

Let show' := show screen_size zlib_compress read_file abspath_fsenc.


(** X11: when the terminal takes no files, [show] streams the file: what the
    receiver decodes from the frames, in order, is exactly what was read from
    the file, for the PNG format (sent as it is, with its length under S) as
    for the raw formats (sent compressed); and the file is removed exactly
    when the transmit mode is "t". *)
Theorem show_streams_file outfile width height fmt transmit_mode align place data :
  (exists out cmd',
     place_cursor screen_size place (show_command fmt width height)
       width height align = (out, Ok cmd')) ->
  read_file outfile = Ok data ->
  let run := show' false outfile width height fmt transmit_mode align place in
  snd run = Ok tt /\
  receive zlib_decompress (frames_of (fst run)) = Some data /\
  (Unlink outfile ∈ fst run <-> transmit_mode = "t") /\
  (fmt = 100 -> data <> [] ->
   exists fr frs, frames_of (fst run) = fr :: frs /\
     fr.1 !! "S" = Some (VInt (Z.of_nat (length data)))).
Proof.
  intros (out & cmd' & Hplace) Hread run.
  pose proof (placement_keys screen_size place _ width height align out cmd'
                Hplace) as [Hw Hk].
  assert (Hp : match place with
               | Some place => set_cursor_for_place screen_size place
                                 (show_command fmt width height)
                                 width height align
               | None => set_cursor screen_size
                           (show_command fmt width height) width height align
               end = (out, Ok cmd')) by exact Hplace.
  set (cmd1 := if decide (fmt = 100)
               then <["S" := VInt (Z.of_nat (length data))]> cmd' else cmd').
  assert (Hf : cmd1 !! "f" = Some (VInt fmt)).
  { subst cmd1. case_decide; [rewrite lookup_insert_ne by done|];
      rewrite Hk by done; by simplify_map_eq. }
  assert (Ho : cmd1 !! "o" = None).
  { subst cmd1. case_decide; [rewrite lookup_insert_ne by done|];
      rewrite Hk by done; by simplify_map_eq. }
  pose proof (write_chunked_received zlib_compress zlib_decompress cmd1 data
              (VInt fmt) zlib_inverse zlib_nonempty Hf Ho) as Hrt.
  assert (Hok : exists cmd2,
            snd (write_chunked zlib_compress cmd1 data) = Ok cmd2).
  { rewrite (write_chunked_unfold zlib_compress cmd1 data _ Hf).
    set (text := standard_b64encode _).
    destruct (decide (text = [])) as [Ht|Ht].
    - rewrite Ht, write_chunks_equation_1. by eexists.
    - destruct (write_chunks_shape _ text
                  (if decide (VInt fmt <> VInt 100)
                   then <["o" := VStr "z"]> cmd1 else cmd1) (le_n _) Ht)
        as (ev & init & last & m & later & -> & _). by eexists. }
  destruct Hok as [cmd2 Hok].
  assert (Hrun : run =
            (out ++ (if decide (transmit_mode = "t") then [Unlink outfile]
                     else []) ++ fst (write_chunked zlib_compress cmd1 data),
             Ok tt)).
  { subst run. unfold show', show. fold (show_command fmt width height).
    rewrite Hp. unfold bind at 1.
    rewrite Hread. unfold lift, bind at 1. fold cmd1.
    destruct (write_chunked zlib_compress cmd1 data) as [ev r] eqn:Ew.
    simpl in Hok. subst r.
    case_decide; simpl; by rewrite ?app_nil_r. }
  assert (Hfr : frames_of (fst run) =
                frames_of (fst (write_chunked zlib_compress cmd1 data))).
  { rewrite Hrun. simpl fst. rewrite !frames_of_app, (frames_of_writes out Hw).
    by case_decide. }
  split; [by rewrite Hrun|]. split; [by rewrite Hfr|]. split.
  - rewrite Hrun. simpl fst. rewrite !elem_of_app. split.
    + intros [Hin|[Hin|Hin]].
      * exfalso. rewrite Forall_forall in Hw. by apply (Hw _ Hin).
      * case_decide; [done|]. by apply elem_of_nil in Hin.
      * exfalso.
        pose proof (write_chunked_only_frames zlib_compress cmd1 data) as Hall.
        rewrite Forall_forall in Hall.
        by destruct (Hall _ Hin) as (c & p & ?).
    + intros ->. right. left. rewrite decide_True by done. by left.
  - intros -> Hdata. rewrite Hfr.
    destruct (write_chunked_keys_once zlib_compress cmd1 data (VInt 100) Hf)
      as (fr & frs & Hfrs & _ & Hkeys1 & _).
    { by rewrite decide_False by (by intros H; apply H). }
    exists fr, frs. split; [exact Hfrs|].
    rewrite Hkeys1 by done. subst cmd1. rewrite decide_True by done.
    by rewrite lookup_insert_eq.
Qed.

End ShowProperties.


Lemma show_streams_file_witness :
  let run := show sample_screen stored_compress sample_read_file
               sample_abspath false "a.rgb" 45 30 24 "t" "center" None in
  snd run = Ok tt /\
  receive stored_decompress (frames_of (fst run)) = Some (B "abcd") /\
  (Unlink "a.rgb" ∈ fst run <-> "t" = "t") /\
  (24 = 100 -> B "abcd" <> [] ->
   exists fr frs, frames_of (fst run) = fr :: frs /\
     fr.1 !! "S" = Some (VInt (Z.of_nat (length (B "abcd"))))).
Proof.
  apply (show_streams_file sample_screen stored_compress stored_decompress
           sample_read_file sample_abspath stored_roundtrip
           ltac:(intros d; discriminate)
           "a.rgb" 45 30 24 "t" "center" None (B "abcd")).
  - eexists _, _. reflexivity.
  - reflexivity.
Defined.

Section ProcessProperties.

Variable screen_size : ScreenSize.
Variable zlib_compress : list byte -> list byte.
Variable identify : string -> result ImageMeta.
Variable convert :
  string -> ImageMeta -> float -> float -> bool -> result (string * Z * Z).
Variable read_file : string -> result (list byte).
Variable abspath_fsenc : string -> list byte.

Let show' := show screen_size zlib_compress read_file abspath_fsenc.
Let process' :=
  process screen_size zlib_compress identify convert read_file abspath_fsenc.

(** X12: without a place and without scale-up, a PNG no wider than the
    terminal is never converted: when the terminal takes files, [process]
    places the cursor, sends one command with format 100, the image's own
    size and the path of the file itself, with t=t for a temporary file and
    t=f otherwise, and ends the line. *)
Theorem process_png_by_path path args is_tempfile m out cmd' :
  identify path = Ok m ->
  m_fmt m = "png" ->
  args_place args = None -> args_scale_up args = false ->
  m_width m <= ss_width screen_size -> 0 <= m_height m ->
  place_cursor screen_size None (show_command 100 (m_width m) (m_height m))
    (m_width m) (m_height m) (args_align args) = (out, Ok cmd') ->
  process' true path args (Some is_tempfile) =
    (out ++ [GrCmd (<["t" := VStr (if is_tempfile then "t" else "f")]> cmd')
               (Some (standard_b64encode (abspath_fsenc path)));
             Print NL],
     Ok tt).
Proof.
  intros Hid Hfmt Hplace Hscale Hw Hh Hcur.
  unfold process', process. rewrite Hid, Hplace, Hscale.
  cbn [lift bind available_box rbind app].
  unfold needs_scaling. cbn [fst snd]. rewrite !gt_float_inject.
  replace (ss_width screen_size <? m_width m) with false
    by (symmetry; apply Z.ltb_ge; lia).
  replace (10 * m_height m <? m_height m) with false
    by (symmetry; apply Z.ltb_ge; lia).
  rewrite Hfmt. cbn [orb negb andb]. rewrite bool_decide_eq_true_2 by done.
  cbn [andb ret bind app]. unfold show.
  fold (show_command 100 (m_width m) (m_height m)).
  unfold place_cursor in Hcur. rewrite Hcur.
  unfold bind, write_gr_cmd, emit. simpl. by rewrite <- app_assoc.
Qed.

(** X13: an image that is not a PNG, or is wider than the terminal, or is to
    be scaled up, always goes through [convert], with the box of the
    terminal's width by ten times the image's height; a failure of [convert]
    ends [process] before anything is written, and its result is shown with
    format 24 for mode rgb and 32 otherwise, always with transmit mode t. *)
Theorem process_converts has_files path args is_tempfile m :
  identify path = Ok m ->
  args_place args = None ->
  m_fmt m <> "png" \/ ss_width screen_size < m_width m
    \/ args_scale_up args = true ->
  0 <= m_height m ->
  process' has_files path args (Some is_tempfile) =
    match convert path m (Finite (inject_Z (ss_width screen_size)))
            (Finite (inject_Z (10 * m_height m))) (args_scale_up args) with
    | Raise e => ([], Raise e)
    | Ok (outfile, width, height) =>
        let* _ := show' has_files outfile width height
                    (if decide (m_mode m = "rgb") then 24 else 32) "t"
                    (args_align args) None in
        emit (Print NL)
    end.
Proof.
  intros Hid Hplace Hwhy Hh.
  unfold process', process. rewrite Hid, Hplace.
  cbn [lift bind available_box rbind app].
  unfold needs_scaling. cbn [fst snd]. rewrite !gt_float_inject.
  assert (Hslow : bool_decide (m_fmt m = "png")
                  && negb ((ss_width screen_size <? m_width m)
                           || (10 * m_height m <? m_height m)
                           || args_scale_up args) = false).
  { destruct Hwhy as [Hf | [Hw | Hs]].
    - by rewrite bool_decide_eq_false_2.
    - apply Z.ltb_lt in Hw. rewrite Hw. simpl. apply andb_false_r.
    - rewrite Hs, orb_true_r. apply andb_false_r. }
  rewrite Hslow.
  destruct (convert path m _ _ _) as [[[outfile width] height]|e]; [|done].
  unfold show', ret, lift. cbn [bind app].
  destruct (show _ _ _ _ _ _ _ _ _ _ _ _) as [ev [[]|e]]; reflexivity.
Qed.

End ProcessProperties.

Lemma process_png_by_path_witness :
  exists out cmd',
    process sample_screen stored_compress sample_identify sample_convert
      sample_read_file sample_abspath true "a.png" sample_args (Some false) =
      (out ++ [GrCmd (<["t" := VStr "f"]> cmd')
                 (Some (standard_b64encode (sample_abspath "a.png")));
               Print NL],
       Ok tt).
Proof.
  eexists _, _.
  apply (process_png_by_path sample_screen stored_compress sample_identify
           sample_convert sample_read_file sample_abspath "a.png" sample_args
           false (mkImageMeta 100 50 "rgb" "png"));
    [reflexivity | reflexivity | reflexivity | reflexivity
    | simpl; lia | simpl; lia | reflexivity].
Defined.

Lemma process_converts_witness :
  process sample_screen stored_compress sample_identify sample_convert
    sample_read_file sample_abspath false "a.png"
    (mkArgs "center" None true false "stream" false 10 false) (Some false) =
    let* _ := show sample_screen stored_compress sample_read_file
                sample_abspath false "a.png" 100 50 24 "t" "center" None in
    emit (Print NL).
Proof.
  apply (process_converts sample_screen stored_compress sample_identify
           sample_convert sample_read_file sample_abspath false "a.png"
           (mkArgs "center" None true false "stream" false 10 false) false
           (mkImageMeta 100 50 "rgb" "png"));
    [reflexivity | reflexivity | right; right; reflexivity | simpl; lia].
Defined.

(** ** The per-item loop and the command line *)

Lemma for_each_emit {A} (l : list A) (f : A -> event) :
  for_each l (fun x => emit (f x)) = (f <$> l, Ok tt).
Proof.
  induction l as [|x l IH]; [done|].
  cbn [for_each]. unfold bind at 1. unfold emit at 1. by rewrite IH.
Qed.

Section MainMoreProperties.

Variable screen_size : ScreenSize.
Variable zlib_compress : list byte -> list byte.
Variable identify : string -> result ImageMeta.
Variable convert :
  string -> ImageMeta -> float -> float -> bool -> result (string * Z * Z).
Variable read_file : string -> result (list byte).
Variable abspath_fsenc : string -> list byte.
Variable os_walk : string -> list (string * list string * list string).
Variable guess_type : string -> option string.
Variable path_join : string -> string -> string.
Variable unicode_decimal : N -> option N.
Variable int_max_str_digits : N.
Variable terminal_input : list (list byte).
Variable stdin_data : option (list byte).
Variable stdin_tempfile : string.
Variable isdir : string -> bool.
Variable clear_images_on_screen : list byte.
Variable format_float : Q -> string.
Variable probe_file_name : list byte.

Let main' :=
  main screen_size zlib_compress identify convert read_file abspath_fsenc
    os_walk guess_type path_join unicode_decimal int_max_str_digits
    terminal_input stdin_data stdin_tempfile
    isdir clear_images_on_screen format_float probe_file_name.
Let main_item' :=
  main_item screen_size zlib_compress identify convert read_file
    abspath_fsenc os_walk guess_type path_join stdin_tempfile isdir.
Let main_loop' :=
  main_loop screen_size zlib_compress identify convert read_file
    abspath_fsenc os_walk guess_type path_join stdin_tempfile isdir.
Let scan' := scan os_walk guess_type path_join.

(** X14: [scan] yields exactly the files of the walk whose guessed type
    starts with image/, each joined to its directory and paired with its
    type, whatever the order of the walk. *)
Theorem scan_image_files d path mt :
  (path, mt) ∈ scan' d <->
  exists dirpath dirnames filenames f,
    (dirpath, dirnames, filenames) ∈ os_walk d /\ f ∈ filenames /\
    guess_type f = Some mt /\ String.prefix "image/" mt = true /\
    path = path_join dirpath f.
Proof.
  unfold scan', scan. rewrite list_elem_of_bind. split.
  - intros ([[dirpath dirnames] filenames] & Hin & Hw).
    apply list_elem_of_bind in Hin as (f & Hin & Hf).
    destruct (guess_type f) as [mt'|] eqn:Hg; [|by apply elem_of_nil in Hin].
    destruct (String.prefix "image/" mt') eqn:Hp;
      [|by apply elem_of_nil in Hin].
    apply list_elem_of_singleton in Hin. injection Hin as -> ->.
    by exists dirpath, dirnames, filenames, f.
  - intros (dirpath & dirnames & filenames & f & Hw & Hf & Hg & Hp & ->).
    exists (dirpath, dirnames, filenames). split; [|done].
    apply list_elem_of_bind. exists f. split; [|done].
    rewrite Hg, Hp. by apply list_elem_of_singleton.
Qed.

(** X15: for a file (not a directory) that [identify] rejects, the loop body
    writes nothing; a file that cannot be opened is recorded as one error
    and the loop goes on, while a missing ImageMagick or any other exception
    ends the program, the first as SystemExit with the exception's
    message. *)
Theorem main_item_identify_error has_files args path e :
  isdir path = false ->
  identify path = Raise e ->
  main_item' has_files args (PathItem path) =
    ([], match e with
         | OpenFailed _ => Ok [e]
         | NoImageMagick msg | ConvertFailed msg =>
             Raise (SystemExit (ExitMsg msg))
         | _ => Raise e
         end).
Proof.
  intros Hd He. unfold main_item', main_item. simpl. rewrite Hd.
  unfold process. rewrite He. by destruct e.
Qed.

(** X16: a file that cannot be opened does not stop the batch: the items
    after it are processed as if it were not there, and its error comes
    first among the errors collected. *)
Theorem main_loop_skips_unreadable has_files args path msg items :
  isdir path = false ->
  identify path = Raise (OpenFailed msg) ->
  main_loop' has_files args (PathItem path :: items) =
    match main_loop' has_files args items with
    | (out, Ok errs) => (out, Ok (OpenFailed msg :: errs))
    | (out, Raise e) => (out, Raise e)
    end.
Proof.
  intros Hd He. unfold main_loop'. cbn [main_loop].
  pose proof (main_item_identify_error has_files args path _ Hd He) as H.
  unfold main_item' in H. rewrite H. unfold bind at 1. cbn [app].
  destruct (main_loop _ _ _ _ _ _ _ _ _ _ _ _ _ _) as [out [errs|e']];
    simpl; by rewrite ?app_nil_r.
Qed.

(** X17: when none of the files named on the command line can be opened,
    [main] (in stream or file mode, without place, clear or detection)
    transfers nothing: it prints each error on stderr, in order, and exits
    with code 1. *)
Theorem main_all_unreadable args paths (errmsg : string -> string) :
  args_print_window_size args = false ->
  args_detect_support args = false ->
  args_clear args = false ->
  args_transfer_mode args <> "detect" ->
  ss_width screen_size <> 0 ->
  stdin_data = None ->
  paths <> [] ->
  Forall (fun p => isdir p = false /\
                   identify p = Raise (OpenFailed (errmsg p))) paths ->
  main' None args (PathItem <$> paths) =
    ((fun p => PrintErr (errmsg p +:+ NL)) <$> paths,
     Raise (SystemExit (ExitCode 1))).
Proof.
  intros Hpw Hds Hcl Htm Hss Hin Hne Hall.
  assert (Hloop : forall hf a,
            main_loop' hf a (PathItem <$> paths) =
              ([], Ok ((fun p => OpenFailed (errmsg p)) <$> paths))).
  { intros hf a. clear Hne. induction Hall as [|p ps [Hd Hi] _ IH]; [done|].
    rewrite fmap_cons, (main_loop_skips_unreadable hf a p _ _ Hd Hi).
    by rewrite IH. }
  destruct args as [align place scale clear mode ds timeout pw].
  cbn in Hpw, Hds, Hcl, Htm. subst pw ds clear.
  unfold main', main. cbn [args_print_window_size]. rewrite Hin.
  destruct (decide (ss_width screen_size = 0)); [done|].
  cbn [parse_place bind ret app]. unfold with_place.
  cbn [args_detect_support args_transfer_mode args_clear args_place
       args_align args_scale_up args_detection_timeout
       args_print_window_size].
  rewrite decide_False by done. cbn [bind ret app].
  destruct paths as [|p ps]; [done|].
  rewrite decide_False by done. cbn [bind ret app].
  unfold main_loop' in Hloop. rewrite Hloop. cbn [bind ret app].
  rewrite decide_False by done.
  rewrite for_each_emit. unfold bind, raise. cbn [app].
  rewrite app_nil_r. f_equal. by rewrite <- list_fmap_compose.
Qed.

End MainMoreProperties.

(** ** Detection, seen from the command line *)

(** All that [detect_support] does: the progress line unless silent, the two
    probes, the clearing sequence unless silent; and the two capabilities
    read off the first responses. *)
Lemma detect_support_run format_float probe_file_name wait_for silent chunks :
  detect_support format_float probe_file_name wait_for silent chunks =
    ((if silent then []
      else [Print ("Checking for graphics (" +:+ format_float wait_for
                     +:+ "s max. wait)..." +:+ CR)])
     ++ probe_events probe_file_name
     ++ (if silent then [] else [Write (ESC :: B "[J")]),
     Ok (first_response_ok "1" (finditer (concat chunks)),
         first_response_ok "2" (finditer (concat chunks)))).
Proof.
  pose proof (detect_support_result format_float probe_file_name wait_for
                silent chunks) as Hres.
  destruct (detect_support _ _ _ _ _) as [out r] eqn:E. simpl in Hres.
  subst r. f_equal.
  apply (f_equal fst) in E. simpl in E. rewrite <- E.
  unfold detect_support.
  destruct (recv more_needed ([], ∅) chunks) as [received responses].
  by destruct silent.
Qed.

(** X18: the outcome of detection does not depend on how the terminal's
    answer is cut into reads: two runs whose inputs concatenate to the same
    bytes write the same and return the same. *)
Theorem detect_support_chunking
    format_float probe_file_name wait_for silent chunks1 chunks2 :
  concat chunks1 = concat chunks2 ->
  detect_support format_float probe_file_name wait_for silent chunks1 =
  detect_support format_float probe_file_name wait_for silent chunks2.
Proof. intros H. by rewrite !detect_support_run, H. Qed.

Lemma detect_support_chunking_witness :
  detect_support sample_format_float (B "/tmp/probe") (inject_Z 10) true
    [frame "1" "OK" ++ frame "2" "OK"] =
  detect_support sample_format_float (B "/tmp/probe") (inject_Z 10) true
    [[ESC] ++ B "_Gi=1;O"; B "K" ++ [ESC]; [BACKSLASH]; frame "2" "OK"].
Proof.
  apply (detect_support_chunking sample_format_float (B "/tmp/probe")
           (inject_Z 10) true). reflexivity.
Defined.

(** X19: once both probes have been answered, nothing the terminal sends
    afterwards changes the outcome: later frames with the same ids, OK or
    not, are ignored. *)
Theorem detect_support_settled
    format_float probe_file_name wait_for silent chunks more p1 p2 :
  first_payload "1" (finditer (concat chunks)) = Some p1 ->
  first_payload "2" (finditer (concat chunks)) = Some p2 ->
  detect_support format_float probe_file_name wait_for silent (chunks ++ more)
  = detect_support format_float probe_file_name wait_for silent chunks.
Proof.
  intros H1 H2. rewrite !detect_support_run, concat_app.
  unfold first_response_ok.
  pose proof (finditer_app_prefix (concat chunks) (concat more)) as Hpre.
  by rewrite (first_payload_prefix _ _ _ _ Hpre H1),
             (first_payload_prefix _ _ _ _ Hpre H2), H1, H2.
Qed.

Lemma detect_support_settled_witness :
  detect_support sample_format_float (B "/tmp/probe") (inject_Z 10) true
    ([frame "1" "OK"; frame "2" "EBADF"] ++ [frame "2" "OK"; frame "1" "ENOENT"])
  = detect_support sample_format_float (B "/tmp/probe") (inject_Z 10) true
      [frame "1" "OK"; frame "2" "EBADF"].
Proof.
  apply (detect_support_settled sample_format_float (B "/tmp/probe")
           (inject_Z 10) true [frame "1" "OK"; frame "2" "EBADF"]
           [frame "2" "OK"; frame "1" "ENOENT"] (B "OK") (B "EBADF"));
    reflexivity.
Defined.

Section MainExits.

Variable screen_size : ScreenSize.
Variable zlib_compress : list byte -> list byte.
Variable identify : string -> result ImageMeta.
Variable convert :
  string -> ImageMeta -> float -> float -> bool -> result (string * Z * Z).
Variable read_file : string -> result (list byte).
Variable abspath_fsenc : string -> list byte.
Variable os_walk : string -> list (string * list string * list string).
Variable guess_type : string -> option string.
Variable path_join : string -> string -> string.
Variable unicode_decimal : N -> option N.
Variable int_max_str_digits : N.
Variable terminal_input : list (list byte).
Variable stdin_data : option (list byte).
Variable stdin_tempfile : string.
Variable isdir : string -> bool.
Variable clear_images_on_screen : list byte.
Variable format_float : Q -> string.
Variable probe_file_name : list byte.

Let main' :=
  main screen_size zlib_compress identify convert read_file abspath_fsenc
    os_walk guess_type path_join unicode_decimal int_max_str_digits
    terminal_input stdin_data stdin_tempfile
    isdir clear_images_on_screen format_float probe_file_name.
Let parse_place' := parse_place unicode_decimal int_max_str_digits.

(** X20: with --detect-support, [main] sends the two probes and nothing
    else to the terminal, whatever items were given: it exits with code 1
    unless the first answer to probe 1 is OK, and otherwise prints "file" or
    "stream" on stderr according to the first answer to probe 2. *)
Theorem main_detect_support_mode raw args items place :
  args_print_window_size args = false ->
  ss_width screen_size <> 0 ->
  parse_place' raw = Ok place ->
  args_detect_support args = true ->
  let ms := finditer (concat terminal_input) in
  main' raw args items =
    if first_response_ok "1" ms then
      (probe_events probe_file_name
         ++ [PrintErr (if first_response_ok "2" ms then "file" else "stream")],
       Ok tt)
    else (probe_events probe_file_name, Raise (SystemExit (ExitCode 1))).
Proof.
  intros Hpw Hss Hp Hds ms.
  destruct args as [align pl scale clear mode ds timeout pw].
  cbn in Hpw, Hds. subst pw ds.
  unfold parse_place' in Hp.
  unfold main', main. cbn [args_print_window_size].
  destruct (decide (ss_width screen_size = 0)); [done|].
  rewrite Hp. cbn [bind ret app]. unfold with_place.
  cbn [args_detect_support args_detection_timeout].
  rewrite detect_support_run. fold ms. cbn [bind app].
  rewrite app_nil_r.
  by destruct (first_response_ok "1" ms).
Qed.

(** X21: in transfer mode detect, a terminal whose first answer to probe 1
    is not OK, or that does not answer, makes [main] exit with the message
    that the graphics protocol is not supported, before any item is looked
    at: only the progress line, the probes and the clearing sequence are
    written. *)
Theorem main_unsupported_terminal raw args items place :
  args_print_window_size args = false ->
  ss_width screen_size <> 0 ->
  parse_place' raw = Ok place ->
  args_detect_support args = false ->
  args_transfer_mode args = "detect" ->
  first_response_ok "1" (finditer (concat terminal_input)) = false ->
  main' raw args items =
    ([Print ("Checking for graphics ("
               +:+ format_float (args_detection_timeout args)
               +:+ "s max. wait)..." +:+ CR)]
     ++ probe_events probe_file_name ++ [Write (ESC :: B "[J")],
     Raise (SystemExit (ExitMsg
       "This terminal emulator does not support the graphics protocol, use a terminal emulator such as kitty that does support it"))).
Proof.
  intros Hpw Hss Hp Hds Hmode Hno.
  destruct args as [align pl scale clear mode ds timeout pw].
  cbn in Hpw, Hds, Hmode. subst pw ds mode.
  unfold parse_place' in Hp.
  unfold main', main. cbn [args_print_window_size].
  destruct (decide (ss_width screen_size = 0)); [done|].
  rewrite Hp. cbn [bind ret app]. unfold with_place.
  cbn [args_detect_support args_detection_timeout args_transfer_mode].
  rewrite decide_True by done.
  rewrite detect_support_run, Hno. cbn [bind app negb raise].
  by rewrite !app_nil_r.
Qed.

(** X22: --place takes a single image.  With a valid place, in stream or
    file mode and without --clear, [main] exits with an error before writing
    anything when there is more than one item (the data on STDIN counts) or
    when the first item is a directory. *)
Theorem main_place_single_image raw args items p :
  args_print_window_size args = false ->
  ss_width screen_size <> 0 ->
  parse_place' raw = Ok (Some p) ->
  args_detect_support args = false ->
  args_transfer_mode args <> "detect" ->
  args_clear args = false ->
  (1 < length (all_items stdin_data items))%nat \/
    (exists d rest, all_items stdin_data items = PathItem d :: rest /\
                    isdir d = true) ->
  main' raw args items =
    ([], Raise (SystemExit (ExitMsg
           "The --place option can only be used with a single image"))).
Proof.
  intros Hpw Hss Hp Hds Hmode Hcl Hitems.
  destruct args as [align pl scale clear mode ds timeout pw].
  cbn in Hpw, Hds, Hmode, Hcl. subst pw ds clear.
  unfold parse_place' in Hp.
  unfold main', main. cbn [args_print_window_size].
  fold (all_items stdin_data items).
  destruct (decide (ss_width screen_size = 0)); [done|].
  rewrite Hp. cbn [bind ret app]. unfold with_place.
  cbn [args_detect_support args_transfer_mode args_clear args_place].
  rewrite decide_False by done. cbn [bind ret app].
  assert (Hne : all_items stdin_data items <> []).
  { destruct Hitems as [Hlen | (d & rest & -> & _)]; [|done].
    intros E. rewrite E in Hlen. simpl in Hlen. lia. }
  rewrite decide_False by done.
  assert (Htest : (1 <? length (all_items stdin_data items))%nat
                  || match all_items stdin_data items with
                     | PathItem path :: _ => isdir path
                     | _ => false
                     end = true).
  { destruct Hitems as [Hlen | (d & rest & -> & Hd)].
    - apply Nat.ltb_lt in Hlen. by rewrite Hlen.
    - rewrite Hd. apply orb_true_r. }
  by rewrite Htest.
Qed.

(** X23: with nothing to show (no item, STDIN a terminal), [main] in stream
    or file mode either clears the screen and returns, when --clear is
    given, or exits asking for at least one file. *)
Theorem main_no_items raw args place :
  args_print_window_size args = false ->
  ss_width screen_size <> 0 ->
  parse_place' raw = Ok place ->
  args_detect_support args = false ->
  args_transfer_mode args <> "detect" ->
  stdin_data = None ->
  main' raw args [] =
    if args_clear args then ([Write clear_images_on_screen], Ok tt)
    else ([], Raise (SystemExit
                 (ExitMsg "You must specify at least one file to cat"))).
Proof.
  intros Hpw Hss Hp Hds Hmode Hin.
  destruct args as [align pl scale clear mode ds timeout pw].
  cbn in Hpw, Hds, Hmode. subst pw ds.
  unfold parse_place' in Hp.
  unfold main', main. cbn [args_print_window_size]. rewrite Hin.
  destruct (decide (ss_width screen_size = 0)); [done|].
  rewrite Hp. cbn [bind ret app]. unfold with_place.
  cbn [args_detect_support args_transfer_mode args_clear args_place].
  rewrite decide_False by done. cbn [bind ret app].
  by destruct clear.
Qed.

End MainExits.

Lemma main_item_identify_error_witness :
  main_item sample_screen stored_compress sample_identify_missing
    sample_convert sample_read_file sample_abspath sample_walk
    sample_guess_type sample_join "stdin.png" sample_isdir false sample_args
    (PathItem "gone.png") =
    ([], Ok [OpenFailed "Failed to open gone.png"]).
Proof.
  apply (main_item_identify_error sample_screen stored_compress
           sample_identify_missing sample_convert sample_read_file
           sample_abspath sample_walk sample_guess_type sample_join
           "stdin.png" sample_isdir false sample_args "gone.png"
           (OpenFailed "Failed to open gone.png")); reflexivity.
Defined.

Lemma main_loop_skips_unreadable_witness :
  main_loop sample_screen stored_compress sample_identify_missing
    sample_convert sample_read_file sample_abspath sample_walk
    sample_guess_type sample_join "stdin.png" sample_isdir false sample_args
    [PathItem "gone.png"; PathItem "pics"] =
    ([], Raise (TypeError
            "process() missing 1 required positional argument: 'is_tempfile'")).
Proof.
  rewrite (main_loop_skips_unreadable sample_screen stored_compress
             sample_identify_missing sample_convert sample_read_file
             sample_abspath sample_walk sample_guess_type sample_join
             "stdin.png" sample_isdir false sample_args "gone.png"
             "Failed to open gone.png" [PathItem "pics"]);
    reflexivity.
Defined.

Lemma main_all_unreadable_witness :
  main sample_screen stored_compress sample_identify_missing sample_convert
    sample_read_file sample_abspath sample_walk sample_guess_type sample_join
    sample_unicode_decimal sample_max_str_digits
    [] None "stdin.png" sample_isdir [] sample_format_float [] None
    sample_args [PathItem "a.png"; PathItem "b.png"] =
    ([PrintErr ("Failed to open a.png" +:+ NL);
      PrintErr ("Failed to open b.png" +:+ NL)],
     Raise (SystemExit (ExitCode 1))).
Proof.
  apply (main_all_unreadable sample_screen stored_compress
           sample_identify_missing sample_convert sample_read_file
           sample_abspath sample_walk sample_guess_type sample_join
           sample_unicode_decimal sample_max_str_digits [] None
           "stdin.png" sample_isdir [] sample_format_float [] sample_args
           ["a.png"; "b.png"] (fun p => "Failed to open " +:+ p));
    [reflexivity | reflexivity | reflexivity | discriminate
    | unfold sample_screen; unfold sample_screen; simpl; lia | reflexivity | discriminate
    | repeat constructor].
Defined.

Lemma main_detect_support_mode_witness :
  main sample_screen stored_compress sample_identify sample_convert
    sample_read_file sample_abspath sample_walk sample_guess_type sample_join
    sample_unicode_decimal sample_max_str_digits
    [frame "1" "OK"; frame "2" "EBADF"] None "stdin.png" sample_isdir []
    sample_format_float (B "/tmp/probe") None
    (mkArgs "center" None false false "detect" true 10 false)
    [PathItem "a.png"] =
    (probe_events (B "/tmp/probe") ++ [PrintErr "stream"], Ok tt).
Proof.
  apply (main_detect_support_mode sample_screen stored_compress
           sample_identify sample_convert sample_read_file sample_abspath
           sample_walk sample_guess_type sample_join
    sample_unicode_decimal sample_max_str_digits
           [frame "1" "OK"; frame "2" "EBADF"] None "stdin.png" sample_isdir
           [] sample_format_float (B "/tmp/probe") None
           (mkArgs "center" None false false "detect" true 10 false)
           [PathItem "a.png"] None);
    [reflexivity | unfold sample_screen; simpl; lia | reflexivity | reflexivity].
Defined.

Lemma main_unsupported_terminal_witness :
  main sample_screen stored_compress sample_identify sample_convert
    sample_read_file sample_abspath sample_walk sample_guess_type sample_join
    sample_unicode_decimal sample_max_str_digits
    [] None "stdin.png" sample_isdir [] sample_format_float (B "/tmp/probe")
    None (mkArgs "center" None false false "detect" false 10 false)
    [PathItem "a.png"] =
    ([Print ("Checking for graphics (10.0s max. wait)..." +:+ CR)]
     ++ probe_events (B "/tmp/probe") ++ [Write (ESC :: B "[J")],
     Raise (SystemExit (ExitMsg
       "This terminal emulator does not support the graphics protocol, use a terminal emulator such as kitty that does support it"))).
Proof.
  apply (main_unsupported_terminal sample_screen stored_compress
           sample_identify sample_convert sample_read_file sample_abspath
           sample_walk sample_guess_type sample_join
           sample_unicode_decimal sample_max_str_digits [] None "stdin.png"
           sample_isdir [] sample_format_float (B "/tmp/probe") None
           (mkArgs "center" None false false "detect" false 10 false)
           [PathItem "a.png"] None);
    [reflexivity | unfold sample_screen; simpl; lia | reflexivity | reflexivity | reflexivity
    | reflexivity].
Defined.

Lemma main_place_single_image_witness :
  main sample_screen stored_compress sample_identify sample_convert
    sample_read_file sample_abspath sample_walk sample_guess_type sample_join
    sample_unicode_decimal sample_max_str_digits
    [] (Some (B "png bytes")) "stdin.png" sample_isdir []
    sample_format_float (B "/tmp/probe") (Some "8x4@2x3") sample_args
    [PathItem "a.png"] =
    ([], Raise (SystemExit (ExitMsg
           "The --place option can only be used with a single image"))).
Proof.
  apply (main_place_single_image sample_screen stored_compress
           sample_identify sample_convert sample_read_file sample_abspath
           sample_walk sample_guess_type sample_join
           sample_unicode_decimal sample_max_str_digits []
           (Some (B "png bytes")) "stdin.png" sample_isdir [] sample_format_float (B "/tmp/probe")
           (Some "8x4@2x3") sample_args [PathItem "a.png"] (mkPlace 8 4 2 3));
    [reflexivity | unfold sample_screen; simpl; lia | reflexivity | reflexivity | discriminate
    | reflexivity | left; simpl; lia].
Defined.

Lemma main_no_items_witness :
  main sample_screen stored_compress sample_identify sample_convert
    sample_read_file sample_abspath sample_walk sample_guess_type sample_join
    sample_unicode_decimal sample_max_str_digits
    [] None "stdin.png" sample_isdir (ESC :: B "_Ga=d" ++ [ESC; BACKSLASH])
    sample_format_float (B "/tmp/probe") None
    (mkArgs "center" None false true "stream" false 10 false) [] =
    ([Write (ESC :: B "_Ga=d" ++ [ESC; BACKSLASH])], Ok tt).
Proof.
  apply (main_no_items sample_screen stored_compress sample_identify
           sample_convert sample_read_file sample_abspath sample_walk
           sample_guess_type sample_join
           sample_unicode_decimal sample_max_str_digits [] None "stdin.png"
           sample_isdir (ESC :: B "_Ga=d" ++ [ESC; BACKSLASH]) sample_format_float
           (B "/tmp/probe") None
           (mkArgs "center" None false true "stream" false 10 false) None);
    [reflexivity | unfold sample_screen; simpl; lia | reflexivity | reflexivity | discriminate
    | reflexivity].
Defined.

(** ** More on parsing the place *)

Lemma split1_no_separator sep s :
  (forall a b, s <> a +:+ String sep b) -> split1 sep s = [s].
Proof.
  induction s as [|c s IH]; intros H; [done|].
  cbn [split1]. case_decide as Hc.
  - subst c. by destruct (H "" s).
  - rewrite IH; [done|]. intros a b ->. by apply (H (String c a) b).
Qed.

(** X25: a non-empty specification without "@" is always rejected. *)
Theorem parse_place_missing_at unicode_decimal int_max_str_digits s :
  s <> "" ->
  (forall a b, s <> a +:+ String "@" b) ->
  parse_place unicode_decimal int_max_str_digits (Some s) = Raise ValueError.
Proof.
  intros Hs Hat. unfold parse_place. destruct s as [|c s]; [done|].
  by rewrite (split1_no_separator _ _ Hat).
Qed.

Lemma parse_place_missing_at_witness :
  parse_place sample_unicode_decimal sample_max_str_digits (Some "8x4")
    = Raise ValueError.
Proof.
  apply (parse_place_missing_at sample_unicode_decimal sample_max_str_digits
           "8x4"); [discriminate|].
  intros a b H. destruct a as [|? [|? [|? [|? ?]]]]; discriminate.
Defined.

(** X26: for a place at least as wide as the image's cell footprint,
    [set_cursor_for_place] puts the cursor on row top+1 and on a column from
    which the image stays inside the rectangle: not left of its first
    column, and ending no later than its last. *)
Theorem set_cursor_for_place_inside ss place cmd width height align n :
  cells_needed ss width = Ok n ->
  n <= place_width place ->
  exists off col,
    set_cursor_for_place ss place cmd width height align =
      ([Write (cursor_position (place_top place + 1) col)],
       Ok (<["X" := VInt off]> cmd)) /\
    place_left place + 1 <= col /\
    col + n <= place_left place + 1 + place_width place.
Proof.
  intros Hn Hle.
  destruct (cell_width ss) as [cw|e] eqn:Hcw;
    [|unfold cells_needed in Hn; rewrite Hcw in Hn; discriminate].
  destruct (set_cursor_for_place_run ss place cmd width height align cw n
              Hcw Hn) as (off & _ & ->).
  exists off, (place_left place + 1 + extra_cells place n align).
  split; [reflexivity|]. unfold extra_cells.
  pose proof (Z.mul_div_le (place_width place - n) 2 ltac:(lia)).
  pose proof (Z.div_pos (place_width place - n) 2 ltac:(lia) ltac:(lia)).
  repeat case_decide; lia.
Qed.

Lemma set_cursor_for_place_inside_witness :
  exists off col,
    set_cursor_for_place sample_screen (mkPlace 8 4 2 3) ∅ 45 30 "right" =
      ([Write (cursor_position 4 col)], Ok (<["X" := VInt off]> ∅)) /\
    2 + 1 <= col /\ col + 5 <= 2 + 1 + 8.
Proof.
  apply (set_cursor_for_place_inside sample_screen (mkPlace 8 4 2 3) ∅ 45 30
           "right" 5); [reflexivity | simpl; lia].
Defined.
